(** * Portfolio API (main.py): request handlers over a document store

    A shallow embedding of the request handlers of [main.py] and the
    properties the specification states about them.

    Python dicts are finite maps from field names to values.  Project
    records are mutable objects that the handlers share with the store
    accessor and with the module-level list [SAMPLE_PROJECTS], so they live
    in a heap of dict objects and are passed around by reference.  The
    handlers are written in a state-and-exception monad over a [world]:
    the heap, the contents of the [SAMPLE_PROJECTS] list object, the
    imported [db] handle, the state behind the store accessor, the process
    environment and a log of the accessor calls made so far. *)

From Stdlib Require Import ZArith Lia.
From stdpp Require Import base option strings pretty gmap list fin_maps.

Set Warnings "-register-all".
Local Open Scope Z_scope.
Local Open Scope string_scope.

(** ** Values, dicts and the heap *)

(** Python values as they occur in project records.  [VOid] is the
    store's own identifier type (bson's ObjectId), given by its hex form. *)
Inductive value : Type :=
  | VNone
  | VBool (b : bool)
  | VInt (z : Z)
  | VStr (s : string)
  | VList (l : list value)
  | VOid (hex : string).

(** [a == b] on values. *)
Fixpoint value_eqb (a b : value) : bool :=
  match a, b with
  | VNone, VNone => true
  | VBool x, VBool y => Bool.eqb x y
  | VInt x, VInt y => (x =? y)%Z
  | VStr x, VStr y => String.eqb x y
  | VList l, VList m =>
      (fix go (l m : list value) : bool :=
         match l, m with
         | [], [] => true
         | x :: l', y :: m' => value_eqb x y && go l' m'
         | _, _ => false
         end) l m
  | VOid x, VOid y => String.eqb x y
  | _, _ => false
  end.

(** Dict objects are referred to by their address in the heap. *)
Abbreviation loc := nat (only parsing).
Abbreviation dict := (gmap string value) (only parsing).
Abbreviation heap_t := (gmap nat (gmap string value)) (only parsing).

(** Exceptions.  All three are subclasses of Python's [Exception], which
    is what the handlers' [except Exception] clauses catch. *)
Inductive exn : Type :=
  | Exception (msg : string)
  | KeyError (key : string)
  | HTTPException (status_code : Z) (detail : string).

Inductive outcome (A : Type) : Type :=
  | Ret (a : A)
  | Raise (e : exn).
Arguments Ret {A} a.
Arguments Raise {A} e.

(** ** The sample dataset (main.py, lines 27-68) *)

Definition SAMPLE_PROJECTS : list (gmap string value) :=
  [ list_to_map
      [ ("title", VStr "Immersive Brand Microsite");
        ("role", VStr "Lead 3D & Frontend");
        ("year", VInt 2024);
        ("description", VStr "A lightweight WebGL brand experience with scroll-driven narrative and Spline-authored hero.");
        ("tech", VList [VStr "React"; VStr "Three.js"; VStr "Spline"; VStr "Framer Motion"]);
        ("images", VList
           [ VStr "https://images.unsplash.com/photo-1517694712202-14dd9538aa97?q=80&w=1600&auto=format&fit=crop";
             VStr "https://images.unsplash.com/photo-1504639725590-34d0984388bd?q=80&w=1600&auto=format&fit=crop" ]);
        ("slug", VStr "immersive-brand-microsite");
        ("featured", VBool true);
        ("url", VStr "https://example.com/project/immersive-brand-microsite") ];
    list_to_map
      [ ("title", VStr "Realtime Product Configurator");
        ("role", VStr "3D Developer");
        ("year", VInt 2023);
        ("description", VStr "GPU-optimized configurator with LOD meshes, compressed textures, and AR preview.");
        ("tech", VList [VStr "React"; VStr "r3f"; VStr "GLTF"; VStr "WebGL"]);
        ("images", VList
           [ VStr "https://images.unsplash.com/photo-1518779578993-ec3579fee39f?q=80&w=1600&auto=format&fit=crop" ]);
        ("slug", VStr "realtime-product-configurator");
        ("featured", VBool true);
        ("url", VStr "https://example.com/project/realtime-product-configurator") ];
    list_to_map
      [ ("title", VStr "Data-Driven Portfolio Engine");
        ("role", VStr "Full-Stack Engineer");
        ("year", VInt 2022);
        ("description", VStr "Composable portfolio with CMS, structured data, and blazing-fast edge rendering.");
        ("tech", VList [VStr "Next.js"; VStr "MongoDB"; VStr "Edge Runtime"]);
        ("images", VList
           [ VStr "https://images.unsplash.com/photo-1516259762381-22954d7d3ad2?q=80&w=1600&auto=format&fit=crop" ]);
        ("slug", VStr "data-driven-portfolio-engine");
        ("featured", VBool true);
        ("url", VStr "https://example.com/project/data-driven-portfolio-engine") ] ].

(** ** Collaborators that main.py imports *)

(** Modelled from the spec: schemas.py is not among the sources.  Its
    message schema is "a second structural check" with the "same fields" as
    the request body: name, email and message, all strings. *)
Record Message : Type := mkMessage {
  message_name : string;
  message_email : string;
  message_message : string
}.

(** The [data] argument of [create_document]: a dict object handed over by
    reference, or a schema model. *)
Inductive document : Type :=
  | DictRef (p : nat)
  | Model (m : Message).

(** What main.py imports from [database] and [schemas], neither of which
    is among the sources, and the builtin [str].  They are parameters of the
    development and nothing is assumed about them here: each accessor call
    gets the heap and the state behind the accessor, may change both, and
    returns or raises an [Exception]. *)
Class Collaborators : Type := {
  store : Type;
  get_documents :
    string → gmap string value → Z → gmap nat (gmap string value) → store →
    outcome (list nat) * gmap nat (gmap string value) * store;
  create_document :
    string → document → gmap nat (gmap string value) → store →
    outcome string * gmap nat (gmap string value) * store;
  (** [db.list_collection_names()] *)
  list_collection_names :
    gmap nat (gmap string value) → store →
    outcome (list string) * gmap nat (gmap string value) * store;
  (** [db.name if hasattr(db, 'name')] *)
  db_name : store → option string;
  (** [MessageSchema(name=..., email=..., message=...)]: validates, then
      builds the model or raises. *)
  MessageSchema : string → string → string → outcome Message;
  (** the builtin [str] on record values *)
  py_str : value → string
}.

(** The handle [db] imported from [database]; [None] when no database is
    configured. *)
Inductive db_handle : Type := DbHandle.

(** One entry of the log of accessor calls. *)
Inductive call : Type :=
  | GetDocuments (collection : string) (filter_dict : gmap string value) (limit : Z)
  | CreateDocument (collection : string) (data : document)
  | ListCollectionNames.

(** ** The world and the handler monad *)

Record world `{Collaborators} : Type := World {
  heap : gmap nat (gmap string value);
  (** the elements of the list object bound to [SAMPLE_PROJECTS] *)
  sample_list : list nat;
  db : option db_handle;
  store_state : store;
  (** [os.environ] *)
  environ : gmap string string;
  (** accessor calls made so far, oldest first *)
  calls : list call
}.

Definition M `{Collaborators} (A : Type) : Type := world → outcome A * world.

Definition ret `{Collaborators} {A} (a : A) : M A := λ w, (Ret a, w).

Definition bind `{Collaborators} {A B} (m : M A) (k : A → M B) : M B := λ w,
  match m w with
  | (Ret a, w') => k a w'
  | (Raise e, w') => (Raise e, w')
  end.

Definition raise `{Collaborators} {A} (e : exn) : M A := λ w, (Raise e, w).

(** [try: m  except Exception as e: h e] *)
Definition try_except `{Collaborators} {A} (m : M A) (h : exn → M A) : M A := λ w,
  match m w with
  | (Ret a, w') => (Ret a, w')
  | (Raise e, w') => h e w'
  end.

Definition get_world `{Collaborators} : M world := λ w, (Ret w, w).

Declare Scope handler_scope.
Delimit Scope handler_scope with M.
Notation "'let*' x ':=' m 'in' k" := (bind m (λ x, k))
  (at level 10, x name, m at level 100, k at level 200) : handler_scope.
Notation "m '>>' k" := (bind m (λ _, k))
  (at level 100, k at level 200, right associativity) : handler_scope.
Local Open Scope handler_scope.

(** [for x in l: body x] *)
Fixpoint for_each `{Collaborators} {A} (body : A → M unit) (l : list A) : M unit :=
  match l with
  | [] => ret ()
  | x :: l' => body x >> for_each body l'
  end.

Section world_ops.
Context `{C : Collaborators}.

Definition set_heap (h : gmap nat (gmap string value)) (w : world) : world :=
  World _ h (sample_list w) (db w) (store_state w) (environ w) (calls w).

(** An accessor call: run it on the heap and the store state, keep what
    it did to both, and log the call. *)
Definition after_call (c : call) (h : gmap nat (gmap string value)) (s : store)
    (w : world) : world :=
  World _ h (sample_list w) (db w) s (environ w) (calls w ++ [c]).

Definition call_get_documents (collection : string) (filter_dict : gmap string value)
    (limit : Z) : M (list nat) := λ w,
  let '(r, h, s) := get_documents collection filter_dict limit (heap w) (store_state w) in
  (r, after_call (GetDocuments collection filter_dict limit) h s w).

Definition call_create_document (collection : string) (data : document) : M string := λ w,
  let '(r, h, s) := create_document collection data (heap w) (store_state w) in
  (r, after_call (CreateDocument collection data) h s w).

Definition call_list_collection_names : M (list string) := λ w,
  let '(r, h, s) := list_collection_names (heap w) (store_state w) in
  (r, after_call ListCollectionNames h s w).

(** [d[key]] on the dict object at [p] *)
Definition getitem (p : nat) (key : string) : M value := λ w,
  match heap w !! p ≫= (.!! key) with
  | Some v => (Ret v, w)
  | None => (Raise (KeyError key), w)
  end.

(** [d["id"] = str(d.pop("_id"))] on a dict that has the key ["_id"] *)
Definition id_renamed (d : gmap string value) : gmap string value :=
  match d !! "_id" with
  | Some v => <["id" := VStr (py_str v)]> (delete "_id" d)
  | None => d
  end.

Definition rename_id_heap (p : nat) (h : gmap nat (gmap string value)) :
    gmap nat (gmap string value) :=
  match h !! p with
  | Some d => <[p := id_renamed d]> h
  | None => h
  end.

(** [if "_id" in d: d["id"] = str(d.pop("_id"))] on the dict object at
    [p]: the object is changed in place. *)
Definition rename_id (p : nat) : M unit := λ w,
  (Ret (), set_heap (rename_id_heap p (heap w)) w).

(** [os.getenv(key)], used for its truth value *)
Definition getenv_truthy (key : string) (w : world) : bool :=
  match environ w !! key with
  | Some v => negb (String.eqb v "")
  | None => false
  end.
End world_ops.

(** ** Responses *)

(** The dict built by [test_database]. *)
Record diagnostics : Type := Diagnostics {
  backend : string;
  database : string;
  database_url : option string;
  database_name : option string;
  connection_status : string;
  collections : list string
}.

Inductive response : Type :=
  | MessageResponse (message : string)           (* {"message": ...} *)
  | DiagnosticsResponse (d : diagnostics)
  | ProjectsResponse (projects : list nat)        (* {"projects": [...]} *)
  | ProjectResponse (p : nat)                     (* the project dict itself *)
  | ContactResponse (status : string) (id : option string).  (* {"status": ..., "id": ...} *)

(** The body of [POST /api/contact]. *)
Record ContactRequest : Type := mkContactRequest {
  name : string;
  email : string;
  message : string
}.

(** ** Python expressions used by the handlers *)

(** [limit or 50] *)
Definition limit_or_50 (limit : option Z) : Z :=
  match limit with
  | Some n => if (n =? 0)%Z then 50 else n
  | None => 50
  end.

(** the truth value of [limit] *)
Definition truthy (limit : option Z) : bool :=
  match limit with
  | Some n => negb (n =? 0)%Z
  | None => false
  end.

(** [l[:n]]: a negative [n] counts from the end. *)
Definition slice_to {A} (n : Z) (l : list A) : list A :=
  if (0 <=? n)%Z then take (Z.to_nat n) l
  else take (Z.to_nat (Z.of_nat (length l) + n)) l.

(** [SAMPLE_PROJECTS[:limit] if limit else SAMPLE_PROJECTS] *)
Definition fallback_data {A} (limit : option Z) (samples : list A) : list A :=
  match limit with
  | Some n => if truthy limit then slice_to n samples else samples
  | None => samples
  end.

(** A Python string is held as the bytes of its UTF-8 encoding, so one
    character is one byte that is not a continuation byte ([10xxxxxx]),
    followed by its continuation bytes. *)
Definition is_continuation (a : Ascii.ascii) : bool :=
  match a with
  | Ascii.Ascii _ _ _ _ _ _ b6 b7 => b7 && negb b6
  end.

(** [len(s)]: the number of characters. *)
Fixpoint str_len (s : string) : nat :=
  match s with
  | EmptyString => 0
  | String a s' => if is_continuation a then str_len s' else S (str_len s')
  end.

(** [s[:n]]: the first [n] characters, each with all of its bytes. *)
Fixpoint str_take (n : nat) (s : string) : string :=
  match s with
  | EmptyString => EmptyString
  | String a s' =>
      if is_continuation a then String a (str_take n s')
      else
        match n with
        | O => EmptyString
        | S n' => String a (str_take n' s')
        end
  end.

(** [str(e)] for the exceptions of the model (the last as Starlette prints
    it). *)
Definition str_exn (e : exn) : string :=
  match e with
  | Exception msg => msg
  | KeyError key => "'" +:+ key +:+ "'"
  | HTTPException status_code detail => pretty status_code +:+ ": " +:+ detail
  end.

(** ** The request handlers (main.py, lines 71-170) *)

Section handlers.
Context `{C : Collaborators}.

Definition read_root : M response :=
  ret (MessageResponse "Aarav Tatiya Portfolio API running").

Definition hello : M response :=
  ret (MessageResponse "Hello from the backend API!").

Definition set_database (v : string) (r : diagnostics) : diagnostics :=
  Diagnostics (backend r) v (database_url r) (database_name r) (connection_status r)
    (collections r).

Definition set_collections (v : list string) (r : diagnostics) : diagnostics :=
  Diagnostics (backend r) (database r) (database_url r) (database_name r)
    (connection_status r) v.

(** [GET /test].  The dict [response] is local to the call and is
    threaded through as a value.  Nothing in the outer [try] raises
    outside the inner one, so the outer handler only ever sees the
    initial dict. *)
Definition test_database : M response :=
  let response :=
    Diagnostics "✅ Running" "❌ Not Available" None None "Not Connected" [] in
  let* response :=
    try_except
      (let* w := get_world in
       match db w with
       | Some _ =>
           let response :=
             Diagnostics (backend response) "✅ Available" (Some "✅ Configured")
               (Some (default "✅ Connected" (db_name (store_state w))))
               "Connected" (collections response) in
           try_except
             (let* collections := call_list_collection_names in
              ret (set_database "✅ Connected & Working"
                     (set_collections (take 10 collections) response)))
             (λ e, ret (set_database
                          ("⚠️  Connected but Error: " +:+ str_take 50 (str_exn e))
                          response))
       | None => ret (set_database "⚠️  Available but not initialized" response)
       end)
      (λ e, ret (set_database ("❌ Error: " +:+ str_take 50 (str_exn e)) response)) in
  let* w := get_world in
  ret (DiagnosticsResponse
         (Diagnostics (backend response) (database response)
            (Some (if getenv_truthy "DATABASE_URL" w then "✅ Set" else "❌ Not Set"))
            (Some (if getenv_truthy "DATABASE_NAME" w then "✅ Set" else "❌ Not Set"))
            (connection_status response) (collections response))).

(** Lines 122-126: one [create_document] per sample entry, each in its
    own [try]. *)
Definition seed_samples : M unit :=
  let* w := get_world in
  for_each
    (λ p, try_except
            (let* _ := call_create_document "project" (DictRef p) in ret ())
            (λ _, ret ()))
    (sample_list w).

(** Lines 118-132, the body of the [try]: [Some] response when it
    returns, [None] when control falls out of the block. *)
Definition list_projects_try (limit : option Z) : M (option response) :=
  let* w := get_world in
  match db w with
  | Some _ =>
      let* docs := call_get_documents "project" ∅ (limit_or_50 limit) in
      let* docs :=
        match docs with
        | [] => (seed_samples >> call_get_documents "project" ∅ (limit_or_50 limit))
        | _ :: _ => ret docs
        end in
      (for_each rename_id docs >>
       ret (Some (ProjectsResponse docs)))
  | None => ret None
  end.

(** Lines 117-134: the [try] with its [except Exception: pass]. *)
Definition list_projects_attempt (limit : option Z) : M (option response) :=
  try_except (list_projects_try limit) (λ _, ret None).

(** [GET /api/projects] *)
Definition list_projects (limit : option Z) : M response :=
  let* r := list_projects_attempt limit in
  match r with
  | Some resp => ret resp
  | None =>
      let* w := get_world in
      ret (ProjectsResponse (fallback_data limit (sample_list w)))
  end.

(** Lines 143-149, the body of the [try]. *)
Definition get_project_try (slug : string) : M (option response) :=
  let* w := get_world in
  match db w with
  | Some _ =>
      let* docs := call_get_documents "project" {["slug" := VStr slug]} 1 in
      match docs with
      | d :: _ => (rename_id d >> ret (Some (ProjectResponse d)))
      | [] => ret None
      end
  | None => ret None
  end.

(** Lines 153-155: [for p in SAMPLE_PROJECTS: if p["slug"] == slug: return p] *)
Fixpoint scan_samples (slug : string) (ps : list nat) : M (option nat) :=
  match ps with
  | [] => ret None
  | p :: ps' =>
      let* v := getitem p "slug" in
      if value_eqb v (VStr slug) then ret (Some p) else scan_samples slug ps'
  end.

(** Lines 142-151: the [try] with its [except Exception: pass]. *)
Definition get_project_attempt (slug : string) : M (option response) :=
  try_except (get_project_try slug) (λ _, ret None).

(** [GET /api/projects/{slug}] *)
Definition get_project (slug : string) : M response :=
  let* r := get_project_attempt slug in
  match r with
  | Some resp => ret resp
  | None =>
      let* w := get_world in
      let* found := scan_samples slug (sample_list w) in
      match found with
      | Some p => ret (ProjectResponse p)
      | None => raise (HTTPException 404 "Project not found")
      end
  end.

(** Lines 164-166, the body of the [try]. *)
Definition submit_contact_try (msg : Message) : M (option response) :=
  let* w := get_world in
  match db w with
  | Some _ =>
      let* _id := call_create_document "message" (Model msg) in
      ret (Some (ContactResponse "ok" (Some _id)))
  | None => ret None
  end.

(** Lines 163-168: the [try] with its [except Exception: pass]. *)
Definition submit_contact_attempt (msg : Message) : M (option response) :=
  try_except (submit_contact_try msg) (λ _, ret None).

(** [POST /api/contact] *)
Definition submit_contact (payload : ContactRequest) : M response :=
  let* msg := (λ w, (MessageSchema (name payload) (email payload) (message payload), w)) in
  let* r := submit_contact_attempt msg in
  match r with
  | Some resp => ret resp
  | None => ret (ContactResponse "ok" None)
  end.

(** The routes of the application. *)
Inductive request : Type :=
  | GET_root
  | GET_api_hello
  | GET_test
  | GET_api_projects (limit : option Z)
  | GET_api_project (slug : string)
  | POST_api_contact (payload : ContactRequest).

Definition handle (r : request) : M response :=
  match r with
  | GET_root => read_root
  | GET_api_hello => hello
  | GET_test => test_database
  | GET_api_projects limit => list_projects limit
  | GET_api_project slug => get_project slug
  | POST_api_contact payload => submit_contact payload
  end.
End handlers.

(** ** A store that works against an external database *)

(** Modelled from the spec: database.py is not among the sources.  The
    spec describes its accessor as working "against an external database"
    and the Sample Dataset as "never mutated".  Accordingly an accessor
    call leaves every dict object the caller holds as it is, and the
    records a query returns are objects of their own, new in the heap. *)
Class ExternalStore `{C : Collaborators} : Prop := {
  get_documents_frame coll flt lim h s r h' s' :
    get_documents coll flt lim h s = (r, h', s') → h ⊆ h';
  get_documents_fresh coll flt lim h s docs h' s' :
    get_documents coll flt lim h s = (Ret docs, h', s') →
    ∀ p, p ∈ docs → h !! p = None;
  create_document_frame coll data h s r h' s' :
    create_document coll data h s = (r, h', s') → h ⊆ h';
  list_collection_names_frame h s r h' s' :
    list_collection_names h s = (r, h', s') → h ⊆ h'
}.

(** An accessor that leaves the dict objects it finds as they are: no
    call changes the contents of an object that exists when it is made.
    What it returns it may take from anywhere. *)
Class FramedStore `{C : Collaborators} : Prop := {
  get_documents_keeps coll flt lim h s r h' s' :
    get_documents coll flt lim h s = (r, h', s') → h ⊆ h';
  create_document_keeps coll data h s r h' s' :
    create_document coll data h s = (r, h', s') → h ⊆ h';
  list_collection_names_keeps h s r h' s' :
    list_collection_names h s = (r, h', s') → h ⊆ h'
}.

Module MemStore.

(** Modelled from the spec: database.py, schemas.py and the database
    behind them are not among the sources.  This is a store in the
    spec's terms: collections of documents kept outside the program's
    heap, [create_document] that writes a copy of the data under a new
    identifier and returns the identifier as a string, [get_documents]
    that reads up to [limit] documents matching the filter.  A schedule
    of outages makes a call fail: every call takes the head of
    [outages], and raises when it is [true]. *)
Record t : Type := Make {
  documents : gmap string (list (gmap string value));
  next_id : nat;
  outages : list bool
}.

Definition empty : t := Make ∅ 0 [].

Definition with_outages (o : list bool) (s : t) : t :=
  Make (documents s) (next_id s) o.

Definition down (s : t) : bool :=
  match outages s with
  | b :: _ => b
  | [] => false
  end.

Definition tick (s : t) : t := with_outages (tail (outages s)) s.

Definition matches (flt d : gmap string value) : bool :=
  forallb
    (λ kv : string * value,
       match d !! kv.1 with
       | Some v => value_eqb v kv.2
       | None => false
       end)
    (map_to_list flt).

(** A new dict object for each record read. *)
Fixpoint alloc_all (ds : list (gmap string value)) (h : gmap nat (gmap string value)) :
    list nat * gmap nat (gmap string value) :=
  match ds with
  | [] => ([], h)
  | d :: ds' =>
      let p := fresh (dom h) in
      let '(ps, h') := alloc_all ds' (<[p := d]> h) in
      (p :: ps, h')
  end.

Definition query (coll : string) (flt : gmap string value) (limit : Z)
    (h : gmap nat (gmap string value)) (s : t) :
    outcome (list nat) * gmap nat (gmap string value) * t :=
  if down s then (Raise (Exception "store operation failed"), h, tick s)
  else
    let found := filter (λ d, matches flt d = true) (default [] (documents s !! coll)) in
    let found := if (0 <? limit)%Z then take (Z.to_nat limit) found else found in
    let '(ps, h') := alloc_all found h in
    (Ret ps, h', tick s).

Definition to_dict (m : Message) : gmap string value :=
  list_to_map
    [ ("name", VStr (message_name m));
      ("email", VStr (message_email m));
      ("message", VStr (message_message m)) ].

Definition insert (coll : string) (data : document)
    (h : gmap nat (gmap string value)) (s : t) :
    outcome string * gmap nat (gmap string value) * t :=
  if down s then (Raise (Exception "store operation failed"), h, tick s)
  else
    let d :=
      match data with
      | DictRef p => default ∅ (h !! p)
      | Model m => to_dict m
      end in
    let oid := "oid" +:+ pretty (next_id s) in
    let stored := <["_id" := VOid oid]> d in
    (Ret oid, h,
     Make (<[coll := (default [] (documents s !! coll) ++ [stored])%list]> (documents s))
          (S (next_id s)) (tail (outages s))).

Definition collection_names (h : gmap nat (gmap string value)) (s : t) :
    outcome (list string) * gmap nat (gmap string value) * t :=
  if down s then (Raise (Exception "store operation failed"), h, tick s)
  else (Ret (map fst (map_to_list (documents s))), h, tick s).

(** [str] on the values that occur as identifiers and on scalars; the
    items of a list are joined without quoting. *)
Fixpoint str (v : value) : string :=
  match v with
  | VNone => "None"
  | VBool true => "True"
  | VBool false => "False"
  | VInt z => pretty z
  | VStr s => s
  | VList l => "[" +:+ String.concat ", " (map str l) +:+ "]"
  | VOid hex => hex
  end.

Definition collaborators : Collaborators := {|
  store := t;
  get_documents := query;
  create_document := insert;
  list_collection_names := collection_names;
  db_name := λ _, Some "portfolio";
  MessageSchema := λ n e m, Ret (mkMessage n e m);
  py_str := str
|}.

End MemStore.

(** ** A store that writes into the caller's dict *)

(** An accessor that does not copy what it is handed: [create_document]
    puts the new identifier into the dict object itself, as a database
    driver's insert does with the dict it receives.  Queries find nothing.
    It is neither a [FramedStore] nor an [ExternalStore]; it shows what
    these assumptions are for. *)
Module InPlaceStore.

Definition insert (coll : string) (data : document) (h : gmap nat (gmap string value))
    (s : nat) : outcome string * gmap nat (gmap string value) * nat :=
  let oid := "oid" +:+ pretty s in
  match data with
  | DictRef p =>
      match h !! p with
      | Some d => (Ret oid, <[p := <["_id" := VOid oid]> d]> h, S s)
      | None => (Ret oid, h, S s)
      end
  | Model _ => (Ret oid, h, S s)
  end.

Definition collaborators : Collaborators := {|
  store := nat;
  get_documents := λ _ _ _ h s, (Ret [], h, s);
  create_document := insert;
  list_collection_names := λ h s, (Ret [], h, s);
  db_name := λ _, None;
  MessageSchema := λ n e m, Ret (mkMessage n e m);
  py_str := MemStore.str
|}.

End InPlaceStore.

(** ** The state at load time *)

(** The module body allocates the three sample dicts and binds the list of
    them to [SAMPLE_PROJECTS]; no accessor call has been made. *)
Definition initial_world `{Collaborators} (handle : option db_handle) (s : store)
    (env : gmap string string) : world :=
  World _ (map_seq 0 SAMPLE_PROJECTS) (seq 0 (length SAMPLE_PROJECTS)) handle s env [].

(** The records behind a list of references, as a response shows them. *)
Definition records `{Collaborators} (w : world) (ps : list nat) :
    option (list (gmap string value)) :=
  mapM (λ p, heap w !! p) ps.

(** The entries of [SAMPLE_PROJECTS] hold what the module body put there. *)
Definition sample_intact `{Collaborators} (w : world) : Prop :=
  records w (sample_list w) = Some SAMPLE_PROJECTS.

(** ** Notions used in the statements *)

Section notions.
Context `{C : Collaborators}.

(** The renaming loop [for d in docs: ...] as a function on the heap. *)
Definition rename_all (docs : list nat) (h : gmap nat (gmap string value)) :
    gmap nat (gmap string value) :=
  foldl (λ h p, rename_id_heap p h) h docs.

(** One round of the seeding loop: the write is attempted, its outcome
    dropped. *)
Definition seed_one (p : nat) (w : world) : world :=
  let '(_, h, s) := create_document "project" (DictRef p) (heap w) (store_state w) in
  after_call (CreateDocument "project" (DictRef p)) h s w.

(** The world in which the re-query of line 127 runs: after the first
    query (which left heap [h1] and store state [s1]) and the seeding
    loop. *)
Definition seeded (limit : option Z) (h1 : gmap nat (gmap string value)) (s1 : store)
    (w : world) : world :=
  snd (seed_samples (after_call (GetDocuments "project" ∅ (limit_or_50 limit)) h1 s1 w)).

(** The store has nothing for [slug]: no handle, a query that raises, or
    a query without records.  The last argument is the world the handler
    goes on in. *)
Inductive lookup_misses (slug : string) (w : world) : world → Prop :=
  | miss_without_db :
      db w = None → lookup_misses slug w w
  | miss_query_raises d e h s :
      db w = Some d →
      get_documents "project" {["slug" := VStr slug]} 1 (heap w) (store_state w)
        = (Raise e, h, s) →
      lookup_misses slug w
        (after_call (GetDocuments "project" {["slug" := VStr slug]} 1) h s w)
  | miss_no_record d h s :
      db w = Some d →
      get_documents "project" {["slug" := VStr slug]} 1 (heap w) (store_state w)
        = (Ret [], h, s) →
      lookup_misses slug w
        (after_call (GetDocuments "project" {["slug" := VStr slug]} 1) h s w).

(** The first entry among [ds], read through the references [ps], whose
    slug is [slug]. *)
Fixpoint first_match (slug : string) (ps : list nat) (ds : list (gmap string value)) :
    option nat :=
  match ps, ds with
  | p :: ps', d :: ds' =>
      match d !! "slug" with
      | Some v => if value_eqb v (VStr slug) then Some p else first_match slug ps' ds'
      | None => None
      end
  | _, _ => None
  end.

(** [returned] is [stored] with its internal identifier, if it has one,
    replaced by the public one. *)
Definition identifier_renamed (stored returned : gmap string value) : Prop :=
  returned !! "_id" = None
  ∧ (∀ v, stored !! "_id" = Some v → returned !! "id" = Some (VStr (py_str v)))
  ∧ (∀ k, k ≠ "_id" → k ≠ "id" → returned !! k = stored !! k)
  ∧ (stored !! "_id" = None → returned = stored).

(** From [w] to [w']: the list [SAMPLE_PROJECTS] has the same elements in
    the same order, and every dict object of [w] is in [w'] with the same
    contents. *)
Definition extends (w w' : world) : Prop :=
  sample_list w' = sample_list w ∧ heap w ⊆ heap w'.

(** From [w] to [w'] by accessor calls alone, any number of them. *)
Inductive store_steps : world → world → Prop :=
  | steps_done w :
      store_steps w w
  | steps_get_documents coll flt lim w w' :
      store_steps (snd (call_get_documents coll flt lim w)) w' → store_steps w w'
  | steps_create_document coll data w w' :
      store_steps (snd (call_create_document coll data w)) w' → store_steps w w'
  | steps_list_collection_names w w' :
      store_steps (snd (call_list_collection_names w)) w' → store_steps w w'.
End notions.

(** Requests handled one after the other. *)
Definition run `{Collaborators} (rs : list request) (w : world) : world :=
  foldl (λ w r, snd (handle r w)) w rs.


(** ** Concrete scenarios *)

(** Worlds at load time over the in-memory store, used to run the handlers
    on concrete inputs. *)
Module Scenario.
#[local] Existing Instance MemStore.collaborators.

(** No database configured. *)
Definition no_db : world := initial_world None MemStore.empty ∅.

(** An empty database that behaves according to a schedule of outages. *)
Definition empty_db (outages : list bool) : world :=
  initial_world (Some DbHandle) (MemStore.with_outages outages MemStore.empty) ∅.
End Scenario.

(** ** Further notions: writes in the log, hand-made sample lists *)

(** The log entries that are writes to the store. *)
Definition is_write (c : call) : bool :=
  match c with
  | CreateDocument _ _ => true
  | _ => false
  end.

Definition writes (cs : list call) : list call :=
  List.filter is_write cs.

(** How many entries [SAMPLE_PROJECTS[:limit] if limit else SAMPLE_PROJECTS]
    has, for a list of [len] entries. *)
Definition fallback_length (limit : option Z) (len : nat) : nat :=
  match limit with
  | None => len
  | Some n =>
      if (n =? 0)%Z then len
      else if (0 <? n)%Z then Nat.min (Z.to_nat n) len
      else (len - Z.to_nat (- n))%nat
  end.

Module Catalogue.
#[local] Existing Instance MemStore.collaborators.

(** A world without database whose list [SAMPLE_PROJECTS] holds the given
    dicts, to run the lookup on entries other than the defined ones. *)
Definition of_dicts (ds : list (gmap string value)) : world :=
  World _ (map_seq 0 ds) (seq 0 (length ds)) None MemStore.empty ∅ [].

(** Two entries share the slug "b". *)
Definition shared_slug : world :=
  of_dicts
    [ {[ "slug" := VStr "a" ]};
      <[ "title" := VStr "first" ]> {[ "slug" := VStr "b" ]};
      <[ "title" := VStr "second" ]> {[ "slug" := VStr "b" ]} ].

(** The second entry has no slug. *)
Definition missing_slug : world :=
  of_dicts
    [ {[ "slug" := VStr "a" ]};
      {[ "title" := VStr "untitled" ]};
      {[ "slug" := VStr "b" ]} ].

(** A database with eleven collections, "c0" to "c10". *)
Definition eleven_collections : world :=
  initial_world (Some DbHandle)
    (MemStore.Make (list_to_map (map (λ n : nat, ("c" +:+ pretty n, [])) (seq 0 11))) 0 [])
    ∅.

(** A database that holds the three seeded records: the world after one
    listing of an empty database. *)
Definition seeded_db : world :=
  snd (list_projects None (Scenario.empty_db [])).

(** The in-memory store, except that listing the collection names raises
    with the given text. *)
Definition names_fail (msg : string) : Collaborators := {|
  store := MemStore.t;
  get_documents := MemStore.query;
  create_document := MemStore.insert;
  list_collection_names := λ h s, (Raise (Exception msg), h, s);
  db_name := λ _, Some "portfolio";
  MessageSchema := λ n e m, Ret (mkMessage n e m);
  py_str := MemStore.str
|}.

(** [n] times the character "é", which takes two bytes. *)
Definition accents (n : nat) : string :=
  String.concat "" (replicate n "é").
End Catalogue.

(** * Properties *)

(** ** How the loops of the handlers run *)

Section loops.
Context `{C : Collaborators}.

Lemma set_heap_heap (w : world) : set_heap (heap w) w = w.
Proof. destruct w; reflexivity. Qed.

Lemma for_each_rename_id (docs : list nat) (w : world) :
  for_each rename_id docs w = (Ret (), set_heap (rename_all docs (heap w)) w).
Proof.
  revert w. induction docs as [|p docs IH]; intros w; simpl.
  - unfold ret. by rewrite set_heap_heap.
  - unfold bind, rename_id. by rewrite IH.
Qed.

Lemma id_renamed_no_internal_id (d : gmap string value) : id_renamed d !! "_id" = None.
Proof.
  unfold id_renamed. destruct (d !! "_id") eqn:E; [|done].
  rewrite lookup_insert_ne; [|done]. apply lookup_delete_eq.
Qed.

Lemma id_renamed_public_id (d : gmap string value) (v : value) :
  d !! "_id" = Some v → id_renamed d !! "id" = Some (VStr (py_str v)).
Proof. intros E. unfold id_renamed. rewrite E. apply lookup_insert_eq. Qed.

Lemma id_renamed_other (d : gmap string value) (k : string) :
  k ≠ "_id" → k ≠ "id" → id_renamed d !! k = d !! k.
Proof.
  intros H1 H2. unfold id_renamed. destruct (d !! "_id"); [|done].
  rewrite lookup_insert_ne; [|done]. by rewrite lookup_delete_ne.
Qed.

Lemma id_renamed_idemp (d : gmap string value) : id_renamed (id_renamed d) = id_renamed d.
Proof. unfold id_renamed at 1. by rewrite id_renamed_no_internal_id. Qed.

Lemma lookup_rename_id_heap (p q : nat) (h : gmap nat (gmap string value)) :
  rename_id_heap p h !! q = if decide (p = q) then id_renamed <$> h !! q else h !! q.
Proof.
  unfold rename_id_heap. case_decide as E.
  - subst q. destruct (h !! p) eqn:Hp; simpl.
    + by rewrite lookup_insert_eq.
    + by rewrite Hp.
  - destruct (h !! p); [|done]. by rewrite lookup_insert_ne.
Qed.

(** After the loop every listed object is renamed once, also when it is
    listed twice; the other objects are as before. *)
Lemma lookup_rename_all (docs : list nat) (h : gmap nat (gmap string value)) (q : nat) :
  rename_all docs h !! q = if decide (q ∈ docs) then id_renamed <$> h !! q else h !! q.
Proof.
  revert h. induction docs as [|p docs IH]; intros h.
  - rewrite decide_False; [done | apply not_elem_of_nil].
  - change (rename_all (p :: docs) h) with (rename_all docs (rename_id_heap p h)).
    rewrite IH, lookup_rename_id_heap.
    destruct (decide (p = q)) as [->|Hne].
    + rewrite (decide_True (P := q ∈ q :: docs)); [|by left].
      case_decide; [|done].
      destruct (h !! q); simpl; [|done]. by rewrite id_renamed_idemp.
    + destruct (decide (q ∈ docs)) as [Hin|Hnin].
      * rewrite (decide_True (P := q ∈ p :: docs)); [done | by right].
      * rewrite (decide_False (P := q ∈ p :: docs)); [done|].
        intros [Heq|Hin]%elem_of_cons; [by apply Hne | by apply Hnin].
Qed.

Lemma try_create_document (p : nat) (w : world) :
  try_except (let* _ := call_create_document "project" (DictRef p) in ret ())
    (λ _, ret ()) w = (Ret (), seed_one p w).
Proof.
  unfold try_except, bind, call_create_document, seed_one, ret.
  destruct (create_document _ _ _ _) as [[[i|e] h] s]; reflexivity.
Qed.

Lemma for_each_seed (ps : list nat) (w : world) :
  for_each
    (λ p, try_except (let* _ := call_create_document "project" (DictRef p) in ret ())
            (λ _, ret ())) ps w
  = (Ret (), foldl (λ w p, seed_one p w) w ps).
Proof.
  revert w. induction ps as [|p ps IH]; intros w; simpl; [done|].
  unfold bind at 1. rewrite try_create_document. apply IH.
Qed.

Lemma seed_samples_run (w : world) :
  seed_samples w = (Ret (), foldl (λ w p, seed_one p w) w (sample_list w)).
Proof. unfold seed_samples, bind, get_world. apply for_each_seed. Qed.

Lemma seed_one_fields (p : nat) (w : world) :
  sample_list (seed_one p w) = sample_list w ∧ db (seed_one p w) = db w ∧
  environ (seed_one p w) = environ w ∧
  calls (seed_one p w) = (calls w ++ [CreateDocument "project" (DictRef p)])%list.
Proof.
  unfold seed_one. destruct (create_document _ _ _ _) as [[r h] s]. done.
Qed.

Lemma seed_fold_fields (ps : list nat) (w : world) :
  let w' := foldl (λ w p, seed_one p w) w ps in
  sample_list w' = sample_list w ∧ db w' = db w ∧ environ w' = environ w ∧
  calls w' = (calls w ++ map (λ p, CreateDocument "project" (DictRef p)) ps)%list.
Proof.
  revert w. induction ps as [|p ps IH]; intros w; simpl.
  - by rewrite app_nil_r.
  - destruct (IH (seed_one p w)) as (-> & -> & -> & ->).
    destruct (seed_one_fields p w) as (-> & -> & -> & ->).
    by rewrite <- app_assoc.
Qed.
End loops.

(** ** Project listing *)

Section listing.
Context `{C : Collaborators}.

Lemma list_projects_without_db (limit : option Z) (w : world) :
  db w = None →
  list_projects limit w = (Ret (ProjectsResponse (fallback_data limit (sample_list w))), w).
Proof.
  intros Hdb. unfold list_projects, list_projects_attempt, list_projects_try.
  unfold bind, try_except, get_world, ret. by rewrite Hdb.
Qed.

(** The handler when the first query raises. *)
Lemma list_projects_first_query_raises (limit : option Z) (w : world) d e h s :
  db w = Some d →
  get_documents "project" ∅ (limit_or_50 limit) (heap w) (store_state w) = (Raise e, h, s) →
  list_projects limit w =
    (Ret (ProjectsResponse (fallback_data limit (sample_list w))),
     after_call (GetDocuments "project" ∅ (limit_or_50 limit)) h s w).
Proof.
  intros Hdb Hq. unfold list_projects, list_projects_attempt, list_projects_try.
  unfold bind, try_except, get_world, ret, call_get_documents. by rewrite Hdb, Hq.
Qed.

(** The handler when the first query returns records. *)
Lemma list_projects_first_query_records (limit : option Z) (w : world) d p docs h s :
  db w = Some d →
  get_documents "project" ∅ (limit_or_50 limit) (heap w) (store_state w)
    = (Ret (p :: docs), h, s) →
  list_projects limit w =
    (Ret (ProjectsResponse (p :: docs)),
     set_heap (rename_all (p :: docs) h)
       (after_call (GetDocuments "project" ∅ (limit_or_50 limit)) h s w)).
Proof.
  intros Hdb Hq. unfold list_projects, list_projects_attempt, list_projects_try.
  unfold bind at 1 2 3. unfold try_except, get_world. rewrite Hdb.
  unfold bind at 1. unfold call_get_documents at 1. rewrite Hq.
  unfold bind at 1. unfold ret at 1.
  unfold bind at 1. by rewrite for_each_rename_id.
Qed.

(** The handler when the first query returns no record: the seeding loop
    runs, then the second query decides. *)
Lemma list_projects_first_query_empty (limit : option Z) (w : world) d h1 s1 :
  db w = Some d →
  get_documents "project" ∅ (limit_or_50 limit) (heap w) (store_state w) = (Ret [], h1, s1) →
  let w2 := seeded limit h1 s1 w in
  let c := GetDocuments "project" ∅ (limit_or_50 limit) in
  list_projects limit w =
    match get_documents "project" ∅ (limit_or_50 limit) (heap w2) (store_state w2) with
    | (Ret docs, h3, s3) =>
        (Ret (ProjectsResponse docs), set_heap (rename_all docs h3) (after_call c h3 s3 w2))
    | (Raise e, h3, s3) =>
        (Ret (ProjectsResponse (fallback_data limit (sample_list w))), after_call c h3 s3 w2)
    end.
Proof.
  intros Hdb Hq w2 c. unfold list_projects, list_projects_attempt, list_projects_try.
  unfold bind at 1 2 3. unfold try_except, get_world. rewrite Hdb.
  unfold bind at 1. unfold call_get_documents at 1. rewrite Hq.
  unfold bind at 1 2.
  subst w2. unfold seeded. fold c.
  destruct (seed_samples (after_call c h1 s1 w)) as [r w2] eqn:Hseed.
  rewrite seed_samples_run in Hseed. injection Hseed as <- Hw2. simpl snd.
  assert (Hs : sample_list w2 = sample_list w).
  { subst w2. by destruct (seed_fold_fields (sample_list w) (after_call c h1 s1 w)) as (-> & _). }
  unfold call_get_documents. fold c.
  destruct (get_documents _ _ _ (heap w2) (store_state w2)) as [[[docs|e] h3] s3].
  - unfold bind at 1. rewrite for_each_rename_id. reflexivity.
  - unfold ret, bind. simpl. by rewrite Hs.
Qed.
End listing.

Section listing_claims.
Context `{C : Collaborators}.

Lemma records_map_seq (start : nat) (l : list (gmap string value)) :
  mapM (λ p, (map_seq start l : gmap nat (gmap string value)) !! p) (seq start (length l))
    = Some l.
Proof.
  apply mapM_Some, Forall2_same_length_lookup_2; [by rewrite length_seq|].
  intros i p d [-> Hi]%lookup_seq Hd.
  rewrite lookup_map_seq, option_guard_True by lia.
  by replace (start + i - start)%nat with i by lia.
Qed.

Lemma initial_world_intact handle s env : sample_intact (initial_world handle s env).
Proof. apply records_map_seq. Qed.

Lemma fallback_data_Forall2 {A B} (P : A → B → Prop) limit (l : list A) (k : list B) :
  Forall2 P l k → Forall2 P (fallback_data limit l) (fallback_data limit k).
Proof.
  intros H. unfold fallback_data, slice_to. rewrite (Forall2_length _ _ _ H).
  destruct limit as [n|]; [|done].
  destruct (truthy (Some n)); [|done].
  destruct (0 <=? n)%Z; by apply Forall2_take.
Qed.

Lemma records_fallback_data (limit : option Z) (w : world) :
  sample_intact w →
  records w (fallback_data limit (sample_list w)) = Some (fallback_data limit SAMPLE_PROJECTS).
Proof.
  unfold sample_intact, records. rewrite !mapM_Some. apply fallback_data_Forall2.
Qed.

Lemma fallback_data_positive {A} (n : Z) (l : list A) :
  (0 < n)%Z → fallback_data (Some n) l = take (Z.to_nat n) l.
Proof.
  intros Hn. unfold fallback_data, truthy, slice_to.
  destruct (Z.eqb_spec n 0) as [->|_]; [lia|]. simpl.
  destruct (Z.leb_spec 0 n); [done | lia].
Qed.

(** C1.  Store handle present and first query empty: the handler makes
    the first query, then exactly one [create_document] call for each
    Sample Dataset entry, in order and whatever each of them returns or
    raises, then the second query; when that query returns records, these
    are the records of the response (with their identifiers renamed in
    place). *)
Theorem list_projects_seeds_empty_store (limit : option Z) (w : world) d h1 s1 :
  db w = Some d →
  get_documents "project" ∅ (limit_or_50 limit) (heap w) (store_state w) = (Ret [], h1, s1) →
  let c := GetDocuments "project" ∅ (limit_or_50 limit) in
  let w2 := seeded limit h1 s1 w in
  calls (snd (list_projects limit w))
    = (calls w ++ c :: map (λ p, CreateDocument "project" (DictRef p)) (sample_list w) ++ [c])%list
  ∧ ∀ docs h3 s3,
      get_documents "project" ∅ (limit_or_50 limit) (heap w2) (store_state w2)
        = (Ret docs, h3, s3) →
      fst (list_projects limit w) = Ret (ProjectsResponse docs)
      ∧ heap (snd (list_projects limit w)) = rename_all docs h3.
Proof.
  intros Hdb Hq c w2.
  pose proof (list_projects_first_query_empty limit w d h1 s1 Hdb Hq) as Hrun.
  cbv zeta in Hrun. fold c w2 in Hrun.
  assert (Hcalls : calls w2
    = (calls w ++ c :: map (λ p, CreateDocument "project" (DictRef p)) (sample_list w))%list).
  { subst w2 c. unfold seeded. rewrite seed_samples_run. simpl snd.
    match goal with |- calls (foldl _ ?w1 ?ps) = _ =>
      destruct (seed_fold_fields ps w1) as (_ & _ & _ & ->) end.
    simpl. by rewrite <- app_assoc. }
  split.
  - rewrite Hrun.
    destruct (get_documents _ _ _ (heap w2) (store_state w2)) as [[[docs|e] h3] s3];
      simpl; rewrite Hcalls; by rewrite <- app_assoc.
  - intros docs h3 s3 Hq2. rewrite Hrun, Hq2. done.
Qed.

(** C2, as the code has it.  The listing never raises.  It returns the
    Sample Dataset, as [SAMPLE_PROJECTS[:limit]] when [limit] is given and
    not zero (the first [limit] entries for a positive one) and whole
    otherwise, when the store handle is absent, when the first query
    raises, and when the first query is empty and the second one raises. *)
Theorem list_projects_never_raises (limit : option Z) (w : world) :
  let sample := ProjectsResponse (fallback_data limit (sample_list w)) in
  (∃ resp, fst (list_projects limit w) = Ret resp)
  ∧ (db w = None → list_projects limit w = (Ret sample, w))
  ∧ (∀ d e h s,
       db w = Some d →
       get_documents "project" ∅ (limit_or_50 limit) (heap w) (store_state w) = (Raise e, h, s) →
       fst (list_projects limit w) = Ret sample)
  ∧ (∀ d h1 s1 e h3 s3,
       db w = Some d →
       get_documents "project" ∅ (limit_or_50 limit) (heap w) (store_state w) = (Ret [], h1, s1) →
       let w2 := seeded limit h1 s1 w in
       get_documents "project" ∅ (limit_or_50 limit) (heap w2) (store_state w2) = (Raise e, h3, s3) →
       fst (list_projects limit w) = Ret sample)
  ∧ (∀ n : Z, (0 < n)%Z →
       fallback_data (Some n) (sample_list w) = take (Z.to_nat n) (sample_list w))
  ∧ fallback_data (Some 0%Z) (sample_list w) = sample_list w
  ∧ fallback_data None (sample_list w) = sample_list w.
Proof.
  intros sample. split; [|split; [|split; [|split; [|split]]]].
  - destruct (db w) as [d|] eqn:Hdb.
    + destruct (get_documents "project" ∅ (limit_or_50 limit) (heap w) (store_state w))
        as [[[[|p docs]|e] h1] s1] eqn:Hq.
      * rewrite (list_projects_first_query_empty limit w d h1 s1 Hdb Hq). cbv zeta.
        destruct (get_documents _ _ _ (heap (seeded _ _ _ _)) _) as [[[docs|e] h3] s3];
          simpl; eauto.
      * rewrite (list_projects_first_query_records limit w d p docs h1 s1 Hdb Hq).
        simpl; eauto.
      * rewrite (list_projects_first_query_raises limit w d e h1 s1 Hdb Hq). simpl; eauto.
    + rewrite (list_projects_without_db limit w Hdb). simpl; eauto.
  - apply list_projects_without_db.
  - intros d e h s Hdb Hq. by rewrite (list_projects_first_query_raises limit w d e h s Hdb Hq).
  - intros d h1 s1 e h3 s3 Hdb Hq w2 Hq2.
    rewrite (list_projects_first_query_empty limit w d h1 s1 Hdb Hq).
    cbv zeta. fold w2. by rewrite Hq2.
  - intros n Hn. by apply fallback_data_positive.
  - done.
Qed.

(** C3, for positive limits.  Store handle absent, [1 ≤ N ≤ length of the
    Sample Dataset]: the listing with [limit = N] returns exactly the
    first [N] Sample Dataset entries, in their order. *)
Theorem list_projects_limit_prefix (N : Z) (w : world) :
  db w = None →
  sample_intact w →
  (1 ≤ N ≤ Z.of_nat (length SAMPLE_PROJECTS))%Z →
  ∃ ps,
    list_projects (Some N) w = (Ret (ProjectsResponse ps), w)
    ∧ ps = take (Z.to_nat N) (sample_list w)
    ∧ records w ps = Some (take (Z.to_nat N) SAMPLE_PROJECTS).
Proof.
  intros Hdb Hs HN. exists (take (Z.to_nat N) (sample_list w)).
  rewrite (list_projects_without_db _ _ Hdb).
  rewrite fallback_data_positive by lia.
  split; [done|]. split; [done|].
  rewrite <- (fallback_data_positive N SAMPLE_PROJECTS) by lia.
  rewrite <- (fallback_data_positive N (sample_list w)) by lia.
  by apply records_fallback_data.
Qed.

(** C9.  Store handle absent and [limit = 0]: the listing returns the
    entire Sample Dataset, not an empty list, exactly as with no limit. *)
Theorem list_projects_limit_zero_whole (w : world) :
  db w = None →
  sample_intact w →
  ∃ ps,
    list_projects (Some 0%Z) w = (Ret (ProjectsResponse ps), w)
    ∧ records w ps = Some SAMPLE_PROJECTS
    ∧ length ps = length SAMPLE_PROJECTS
    ∧ ps ≠ []
    ∧ list_projects (Some 0%Z) w = list_projects None w.
Proof.
  intros Hdb Hs. exists (sample_list w).
  rewrite !(list_projects_without_db _ _ Hdb).
  change (fallback_data (Some 0%Z) (sample_list w)) with (sample_list w).
  change (fallback_data None (sample_list w)) with (sample_list w).
  split; [done|]. split; [exact Hs|].
  pose proof (length_mapM _ _ _ Hs) as Hlen.
  split; [exact Hlen|]. split; [|done].
  intros E. rewrite E in Hlen. discriminate Hlen.
Qed.
End listing_claims.

(** ** Project lookup by slug *)

Section lookup.
Context `{C : Collaborators}.

Lemma get_project_attempt_misses (slug : string) (w w1 : world) :
  lookup_misses slug w w1 → get_project_attempt slug w = (Ret None, w1).
Proof.
  unfold get_project_attempt, get_project_try, try_except, bind, get_world,
    call_get_documents, ret.
  destruct 1 as [Hdb|d e h s Hdb Hq|d h s Hdb Hq]; rewrite Hdb; [done|..]; by rewrite Hq.
Qed.

Lemma get_project_attempt_found (slug : string) (w : world) d p docs h s :
  db w = Some d →
  get_documents "project" {["slug" := VStr slug]} 1 (heap w) (store_state w)
    = (Ret (p :: docs), h, s) →
  get_project slug w =
    (Ret (ProjectResponse p),
     set_heap (rename_id_heap p h)
       (after_call (GetDocuments "project" {["slug" := VStr slug]} 1) h s w)).
Proof.
  intros Hdb Hq.
  unfold get_project, get_project_attempt, get_project_try, try_except, bind, get_world,
    call_get_documents, ret, rename_id.
  by rewrite Hdb, Hq.
Qed.

Lemma scan_samples_first_match (slug : string) (w : world) ps ds :
  Forall2 (λ p d, heap w !! p = Some d) ps ds →
  Forall (λ d : gmap string value, is_Some (d !! "slug")) ds →
  scan_samples slug ps w = (Ret (first_match slug ps ds), w).
Proof.
  induction 1 as [|p d ps ds Hp _ IH]; intros Hs; simpl; [done|].
  apply Forall_cons in Hs as [[v Hv] Hs].
  unfold bind, getitem. rewrite Hp. simpl. rewrite Hv.
  destruct (value_eqb v (VStr slug)); [done|]. by apply IH.
Qed.

Lemma sample_slugs : Forall (λ d : gmap string value, is_Some (d !! "slug")) SAMPLE_PROJECTS.
Proof. repeat constructor; vm_compute; eauto. Qed.

Lemma value_eqb_str (v : value) (s : string) : value_eqb v (VStr s) = true ↔ v = VStr s.
Proof.
  destruct v; simpl; try (split; [discriminate|discriminate]).
  rewrite String.eqb_eq. split; [by intros -> | by intros [= ->]].
Qed.

(** The handler once the store has nothing for [slug]. *)
Lemma get_project_after_miss (slug : string) (w w1 : world) :
  lookup_misses slug w w1 →
  sample_intact w1 →
  get_project slug w =
    match first_match slug (sample_list w1) SAMPLE_PROJECTS with
    | Some p => (Ret (ProjectResponse p), w1)
    | None => (Raise (HTTPException 404 "Project not found"), w1)
    end.
Proof.
  intros Hmiss Hs. unfold get_project. unfold bind at 1.
  rewrite (get_project_attempt_misses slug w w1 Hmiss).
  unfold bind, get_world.
  rewrite (scan_samples_first_match slug w1 (sample_list w1) SAMPLE_PROJECTS);
    [|by apply mapM_Some|exact sample_slugs].
  by destruct (first_match _ _ _).
Qed.

Lemma first_match_none (slug : string) ps ds :
  (∀ d : gmap string value, d ∈ ds → d !! "slug" ≠ Some (VStr slug)) →
  first_match slug ps ds = None.
Proof.
  revert ds. induction ps as [|p ps IH]; intros [|d ds] Hno; simpl; try done.
  destruct (d !! "slug") as [v|] eqn:Hv; [|done].
  destruct (value_eqb v (VStr slug)) eqn:E.
  - apply value_eqb_str in E as ->. exfalso. apply (Hno d); [by left | done].
  - apply IH. intros d' Hd'. apply Hno. by right.
Qed.

(** C4.  A slug for which the store has nothing and which no Sample
    Dataset entry carries: the lookup raises [HTTPException] with status
    404 and detail "Project not found". *)
Theorem get_project_unknown_slug (slug : string) (w w1 : world) :
  lookup_misses slug w w1 →
  sample_intact w1 →
  (∀ d : gmap string value, d ∈ SAMPLE_PROJECTS → d !! "slug" ≠ Some (VStr slug)) →
  get_project slug w = (Raise (HTTPException 404 "Project not found"), w1).
Proof.
  intros Hmiss Hs Hno. rewrite (get_project_after_miss slug w w1 Hmiss Hs).
  by rewrite first_match_none.
Qed.

(** C5.  When the store has nothing for [slug] (no handle, a raising
    query, or no record), the lookup returns the Sample Dataset entry
    whose slug is exactly [slug], if there is one; with the handle
    absent, slug "immersive-brand-microsite" gives a record whose title is
    "Immersive Brand Microsite". *)
Theorem get_project_sample_fallback :
  (∀ (slug : string) (w w1 : world) (i : nat) (d : gmap string value),
     lookup_misses slug w w1 →
     sample_intact w1 →
     SAMPLE_PROJECTS !! i = Some d →
     d !! "slug" = Some (VStr slug) →
     ∃ p, get_project slug w = (Ret (ProjectResponse p), w1)
          ∧ sample_list w1 !! i = Some p
          ∧ heap w1 !! p = Some d)
  ∧ (∀ w : world,
     db w = None →
     sample_intact w →
     ∃ p d, get_project "immersive-brand-microsite" w = (Ret (ProjectResponse p), w)
            ∧ heap w !! p = Some d
            ∧ d !! "title" = Some (VStr "Immersive Brand Microsite")).
Proof.
  assert (Hall : ∀ (slug : string) (w w1 : world) (i : nat) (d : gmap string value),
    lookup_misses slug w w1 → sample_intact w1 →
    SAMPLE_PROJECTS !! i = Some d → d !! "slug" = Some (VStr slug) →
    ∃ p, get_project slug w = (Ret (ProjectResponse p), w1)
         ∧ sample_list w1 !! i = Some p ∧ heap w1 !! p = Some d).
  { intros slug w w1 i d Hmiss Hs Hi Hd.
    rewrite (get_project_after_miss slug w w1 Hmiss Hs).
    apply mapM_Some in Hs.
    destruct (sample_list w1) as [|p0 [|p1 [|p2 [|p3 ps]]]];
      try (exfalso; apply Forall2_length in Hs; discriminate Hs).
    apply Forall2_cons in Hs as [H0 Hs]. apply Forall2_cons in Hs as [H1 Hs].
    apply Forall2_cons in Hs as [H2 _].
    destruct i as [|[|[|i]]]; simpl in Hi; try discriminate Hi;
      injection Hi as <-; vm_compute in Hd; injection Hd as <-;
      [exists p0 | exists p1 | exists p2]; (split; [vm_compute; reflexivity | done]). }
  split; [exact Hall|].
  intros w Hdb Hs.
  destruct (Hall "immersive-brand-microsite" w w 0%nat
              (default ∅ (SAMPLE_PROJECTS !! 0%nat))) as (p & Hrun & _ & Hp).
  - by constructor.
  - exact Hs.
  - reflexivity.
  - vm_compute. reflexivity.
  - exists p, (default ∅ (SAMPLE_PROJECTS !! 0%nat)).
    split; [done|]. split; [done|]. vm_compute. reflexivity.
Qed.
End lookup.

(** ** Contact submission *)

Section contact.
Context `{C : Collaborators}.

Lemma submit_contact_run (payload : ContactRequest) (msg : Message) (w : world) :
  MessageSchema (name payload) (email payload) (message payload) = Ret msg →
  submit_contact payload w =
    match db w with
    | None => (Ret (ContactResponse "ok" None), w)
    | Some _ =>
        match create_document "message" (Model msg) (heap w) (store_state w) with
        | (Ret i, h, s) =>
            (Ret (ContactResponse "ok" (Some i)),
             after_call (CreateDocument "message" (Model msg)) h s w)
        | (Raise _, h, s) =>
            (Ret (ContactResponse "ok" None),
             after_call (CreateDocument "message" (Model msg)) h s w)
        end
    end.
Proof.
  intros Hmsg.
  unfold submit_contact, submit_contact_attempt, submit_contact_try, try_except, bind,
    get_world, call_create_document, ret.
  rewrite Hmsg. destruct (db w); [|done].
  by destruct (create_document _ _ _ _) as [[[i|e] h] s].
Qed.

(** C6.  A payload the message schema accepts: the submission returns
    status "ok" in every case; the identifier is null when the store
    handle is absent or the write raises, and it is the string that
    [create_document] returned when the write succeeds. *)
Theorem submit_contact_always_ok (payload : ContactRequest) (msg : Message) (w : world) :
  MessageSchema (name payload) (email payload) (message payload) = Ret msg →
  (∃ i, fst (submit_contact payload w) = Ret (ContactResponse "ok" i))
  ∧ (db w = None → submit_contact payload w = (Ret (ContactResponse "ok" None), w))
  ∧ (∀ d e h s,
       db w = Some d →
       create_document "message" (Model msg) (heap w) (store_state w) = (Raise e, h, s) →
       fst (submit_contact payload w) = Ret (ContactResponse "ok" None))
  ∧ (∀ d i h s,
       db w = Some d →
       create_document "message" (Model msg) (heap w) (store_state w) = (Ret i, h, s) →
       fst (submit_contact payload w) = Ret (ContactResponse "ok" (Some i))).
Proof.
  intros Hmsg. rewrite (submit_contact_run payload msg w Hmsg).
  split; [|split; [|split]].
  - destruct (db w); [|simpl; eauto].
    destruct (create_document _ _ _ _) as [[[i|e] h] s]; simpl; eauto.
  - by intros ->.
  - intros d e h s -> Hc. by rewrite Hc.
  - intros d i h s -> Hc. by rewrite Hc.
Qed.
End contact.

(** ** Identifiers of store records *)

Section identifiers.
Context `{C : Collaborators}.

Lemma id_renamed_identifier_renamed (d : gmap string value) :
  identifier_renamed d (id_renamed d).
Proof.
  split; [apply id_renamed_no_internal_id|].
  split; [apply id_renamed_public_id|].
  split; [apply id_renamed_other|].
  intros E. unfold id_renamed. by rewrite E.
Qed.

Lemma rename_all_listed (docs : list nat) (h : gmap nat (gmap string value)) p d :
  p ∈ docs → h !! p = Some d →
  ∃ d', rename_all docs h !! p = Some d' ∧ identifier_renamed d d'.
Proof.
  intros Hin Hp. exists (id_renamed d). split.
  - rewrite lookup_rename_all, decide_True by done. by rewrite Hp.
  - apply id_renamed_identifier_renamed.
Qed.

(** C7.  Every record that the listing or the lookup returns from the
    store: in the response it has no ["_id"] field, and when the store
    handed it over with an ["_id"], it has an ["id"] field holding the
    string form of that identifier.  For the listing this holds for the
    records of the first query and for those of the query after seeding;
    for the lookup, for the record found. *)
Theorem store_records_identifier_renamed :
  (∀ (limit : option Z) (w : world) d p0 docs h s,
     db w = Some d →
     get_documents "project" ∅ (limit_or_50 limit) (heap w) (store_state w)
       = (Ret (p0 :: docs), h, s) →
     fst (list_projects limit w) = Ret (ProjectsResponse (p0 :: docs))
     ∧ ∀ p r, p ∈ p0 :: docs → h !! p = Some r →
         ∃ r', heap (snd (list_projects limit w)) !! p = Some r' ∧ identifier_renamed r r')
  ∧ (∀ (limit : option Z) (w : world) d h1 s1 docs h3 s3,
     db w = Some d →
     get_documents "project" ∅ (limit_or_50 limit) (heap w) (store_state w) = (Ret [], h1, s1) →
     get_documents "project" ∅ (limit_or_50 limit)
         (heap (seeded limit h1 s1 w)) (store_state (seeded limit h1 s1 w))
       = (Ret docs, h3, s3) →
     fst (list_projects limit w) = Ret (ProjectsResponse docs)
     ∧ ∀ p r, p ∈ docs → h3 !! p = Some r →
         ∃ r', heap (snd (list_projects limit w)) !! p = Some r' ∧ identifier_renamed r r')
  ∧ (∀ (slug : string) (w : world) d p docs h s,
     db w = Some d →
     get_documents "project" {["slug" := VStr slug]} 1 (heap w) (store_state w)
       = (Ret (p :: docs), h, s) →
     fst (get_project slug w) = Ret (ProjectResponse p)
     ∧ ∀ r, h !! p = Some r →
         ∃ r', heap (snd (get_project slug w)) !! p = Some r' ∧ identifier_renamed r r').
Proof.
  split; [|split].
  - intros limit w d p0 docs h s Hdb Hq.
    rewrite (list_projects_first_query_records limit w d p0 docs h s Hdb Hq).
    split; [done|]. intros p r Hin Hp. by apply rename_all_listed.
  - intros limit w d h1 s1 docs h3 s3 Hdb Hq Hq2.
    rewrite (list_projects_first_query_empty limit w d h1 s1 Hdb Hq).
    cbv zeta. rewrite Hq2.
    split; [done|]. intros p r Hin Hp. by apply rename_all_listed.
  - intros slug w d p docs h s Hdb Hq.
    rewrite (get_project_attempt_found slug w d p docs h s Hdb Hq).
    split; [done|]. intros r Hp. simpl.
    destruct (rename_all_listed [p] h p r) as (r' & Hr' & Hren); [by left|done|].
    exists r'. split; [exact Hr' | exact Hren].
Qed.
End identifiers.

(** ** The Sample Dataset stays as it is *)

Section frame.
Context `{C : Collaborators} {E : ExternalStore}.

#[local] Instance extends_refl : Reflexive extends.
Proof. by intros w. Qed.

#[local] Instance extends_trans : Transitive extends.
Proof.
  intros w1 w2 w3 [Hs1 Hh1] [Hs2 Hh2]. split; [congruence|].
  by transitivity (heap w2).
Qed.

Lemma extends_after_call (c : call) (w : world) h s :
  heap w ⊆ h → extends w (after_call c h s w).
Proof. by split. Qed.

Lemma extends_seed_one (p : nat) (w : world) : extends w (seed_one p w).
Proof.
  unfold seed_one.
  destruct (create_document _ _ _ _) as [[r h] s] eqn:Hc.
  apply extends_after_call. by eapply create_document_frame.
Qed.

Lemma extends_seed_fold (ps : list nat) (w : world) :
  extends w (foldl (λ w p, seed_one p w) w ps).
Proof.
  revert w. induction ps as [|p ps IH]; intros w; simpl; [done|].
  etransitivity; [apply extends_seed_one | apply IH].
Qed.

Lemma extends_seeded (limit : option Z) (w : world) h1 s1 :
  heap w ⊆ h1 → extends w (seeded limit h1 s1 w).
Proof.
  intros Hh. unfold seeded. rewrite seed_samples_run. cbn [snd].
  etransitivity; [|apply extends_seed_fold]. by apply extends_after_call.
Qed.

(** Renaming records that are new in the heap leaves the older objects
    alone. *)
Lemma rename_all_extends (h0 h : gmap nat (gmap string value)) (docs : list nat) :
  h0 ⊆ h → (∀ p, p ∈ docs → h0 !! p = None) → h0 ⊆ rename_all docs h.
Proof.
  intros Hsub Hfresh. apply map_subseteq_spec. intros p d Hp.
  rewrite lookup_rename_all. case_decide as Hin.
  - rewrite (Hfresh p Hin) in Hp. discriminate Hp.
  - by eapply lookup_weaken.
Qed.

Lemma extends_renamed (c : call) (w0 w : world) docs h s :
  extends w0 w →
  heap w ⊆ h →
  (∀ p, p ∈ docs → heap w !! p = None) →
  extends w0 (set_heap (rename_all docs h) (after_call c h s w)).
Proof.
  intros [Hs Hh] Hsub Hfresh. split; [exact Hs|]. simpl.
  apply rename_all_extends; [by transitivity (heap w)|].
  intros p Hin. eapply lookup_weaken_None; [by apply Hfresh | exact Hh].
Qed.

Lemma list_projects_extends (limit : option Z) (w : world) :
  extends w (snd (list_projects limit w)).
Proof.
  destruct (db w) as [d|] eqn:Hdb;
    [|by rewrite (list_projects_without_db limit w Hdb)].
  destruct (get_documents "project" ∅ (limit_or_50 limit) (heap w) (store_state w))
    as [[[[|p docs]|e] h1] s1] eqn:Hq.
  - rewrite (list_projects_first_query_empty limit w d h1 s1 Hdb Hq). cbv zeta.
    pose proof (get_documents_frame _ _ _ _ _ _ _ _ Hq) as Hh1.
    pose proof (extends_seeded limit w h1 s1 Hh1) as Hw2.
    destruct (get_documents _ _ _ (heap (seeded _ _ _ _)) _) as [[[docs|e] h3] s3] eqn:Hq2;
      cbn [snd].
    + apply extends_renamed; [done|by eapply get_documents_frame|].
      by eapply get_documents_fresh.
    + etransitivity; [exact Hw2|]. apply extends_after_call. by eapply get_documents_frame.
  - rewrite (list_projects_first_query_records limit w d p docs h1 s1 Hdb Hq). cbn [snd].
    apply extends_renamed; [done|by eapply get_documents_frame|].
    by eapply get_documents_fresh.
  - rewrite (list_projects_first_query_raises limit w d e h1 s1 Hdb Hq). cbn [snd].
    apply extends_after_call. by eapply get_documents_frame.
Qed.

Lemma lookup_misses_extends (slug : string) (w w1 : world) :
  lookup_misses slug w w1 → extends w w1.
Proof.
  destruct 1 as [Hdb|d e h s Hdb Hq|d h s Hdb Hq]; [done|..];
    apply extends_after_call; by eapply get_documents_frame.
Qed.

Lemma scan_samples_world (slug : string) (ps : list nat) (w : world) :
  snd (scan_samples slug ps w) = w.
Proof.
  induction ps as [|p ps IH]; simpl; [done|].
  unfold bind, getitem. destruct (heap w !! p ≫= _); [|done].
  by destruct (value_eqb _ _).
Qed.

Lemma get_project_cases (slug : string) (w : world) :
  (∃ w1, lookup_misses slug w w1 ∧ snd (get_project slug w) = w1)
  ∨ (∃ d p docs h s,
       db w = Some d
       ∧ get_documents "project" {["slug" := VStr slug]} 1 (heap w) (store_state w)
           = (Ret (p :: docs), h, s)).
Proof.
  destruct (db w) as [d|] eqn:Hdb.
  - destruct (get_documents "project" {["slug" := VStr slug]} 1 (heap w) (store_state w))
      as [[[[|p docs]|e] h] s] eqn:Hq.
    + left. eexists. split; [by eapply miss_no_record|].
      unfold get_project. unfold bind at 1.
      erewrite get_project_attempt_misses; [|by eapply miss_no_record].
      unfold bind, get_world.
      pose proof (scan_samples_world slug
        (sample_list (after_call (GetDocuments "project" {["slug" := VStr slug]} 1) h s w))
        (after_call (GetDocuments "project" {["slug" := VStr slug]} 1) h s w)) as Hscan.
      destruct (scan_samples _ _ _) as [[[q|]|e] w']; simpl in *; by subst.
    + right. by exists d, p, docs, h, s.
    + left. eexists. split; [by eapply miss_query_raises|].
      unfold get_project. unfold bind at 1.
      erewrite get_project_attempt_misses; [|by eapply miss_query_raises].
      unfold bind, get_world.
      pose proof (scan_samples_world slug
        (sample_list (after_call (GetDocuments "project" {["slug" := VStr slug]} 1) h s w))
        (after_call (GetDocuments "project" {["slug" := VStr slug]} 1) h s w)) as Hscan.
      destruct (scan_samples _ _ _) as [[[q|]|e'] w']; simpl in *; by subst.
  - left. exists w. split; [by constructor|].
    unfold get_project. unfold bind at 1.
    erewrite get_project_attempt_misses; [|by constructor].
    unfold bind, get_world.
    pose proof (scan_samples_world slug (sample_list w) w) as Hscan.
    destruct (scan_samples _ _ _) as [[[q|]|e] w']; simpl in *; by subst.
Qed.

Lemma get_project_extends (slug : string) (w : world) :
  extends w (snd (get_project slug w)).
Proof.
  destruct (get_project_cases slug w) as [(w1 & Hmiss & ->)|(d & p & docs & h & s & Hdb & Hq)].
  - by eapply lookup_misses_extends.
  - rewrite (get_project_attempt_found slug w d p docs h s Hdb Hq). cbn [snd].
    apply (extends_renamed _ w w [p]); [done|by eapply get_documents_frame|].
    intros q ->%list_elem_of_singleton.
    eapply get_documents_fresh; [exact Hq | by left].
Qed.

Lemma submit_contact_extends (payload : ContactRequest) (w : world) :
  extends w (snd (submit_contact payload w)).
Proof.
  destruct (MessageSchema (name payload) (email payload) (message payload))
    as [msg|e] eqn:Hmsg.
  - rewrite (submit_contact_run payload msg w Hmsg).
    destruct (db w); [|done].
    destruct (create_document _ _ _ _) as [[[i|e] h] s] eqn:Hc; cbn [snd];
      apply extends_after_call; by eapply create_document_frame.
  - unfold submit_contact, bind. by rewrite Hmsg.
Qed.

Lemma test_database_extends (w : world) : extends w (snd (test_database w)).
Proof.
  unfold test_database, bind, try_except, get_world, call_list_collection_names, ret.
  destruct (db w); [|done].
  destruct (list_collection_names _ _) as [[[l|e] h] s] eqn:Hl; cbn [snd];
    apply extends_after_call; by eapply list_collection_names_frame.
Qed.

Lemma handle_extends (r : request) (w : world) : extends w (snd (handle r w)).
Proof.
  destruct r; simpl; [done|done|..].
  - apply test_database_extends.
  - apply list_projects_extends.
  - apply get_project_extends.
  - apply submit_contact_extends.
Qed.

Lemma run_extends (rs : list request) (w : world) : extends w (run rs w).
Proof.
  revert w. induction rs as [|r rs IH]; intros w; [done|].
  change (run (r :: rs) w) with (run rs (snd (handle r w))).
  etransitivity; [apply handle_extends | apply IH].
Qed.

Lemma sample_intact_extends (w w' : world) :
  extends w w' → sample_intact w → sample_intact w'.
Proof.
  intros [Hs Hh]. unfold sample_intact, records. rewrite !mapM_Some, Hs.
  intros H. eapply Forall2_impl; [exact H|].
  intros p d Hp. simpl in *. exact (lookup_weaken _ _ _ _ Hp Hh).
Qed.
End frame.

Section sample_claims.
Context `{C : Collaborators} {E : ExternalStore}.

Lemma sample_no_identifier :
  Forall (λ d : gmap string value, d !! "id" = None ∧ d !! "_id" = None) SAMPLE_PROJECTS.
Proof. repeat constructor; vm_compute; reflexivity. Qed.

Lemma fallback_data_Forall {A} (P : A → Prop) (limit : option Z) (l : list A) :
  Forall P l → Forall P (fallback_data limit l).
Proof.
  intros H. unfold fallback_data, slice_to. destruct limit as [n|]; [|done].
  destruct (truthy (Some n)); [|done].
  destruct (0 <=? n)%Z; by apply Forall_take.
Qed.

Lemma first_match_some (slug : string) (h : gmap nat (gmap string value)) ps ds p :
  Forall2 (λ p d, h !! p = Some d) ps ds →
  first_match slug ps ds = Some p →
  ∃ d, h !! p = Some d ∧ d ∈ ds.
Proof.
  induction 1 as [|q d ps ds Hq _ IH]; simpl; [done|].
  destruct (d !! "slug") as [v|]; [|done].
  destruct (value_eqb v (VStr slug)).
  - intros [= <-]. exists d. split; [done | by left].
  - intros Hm. destruct (IH Hm) as (d' & Hd' & Hin). exists d'. split; [done | by right].
Qed.

(** C10.  With a store accessor that works against an external database
    and the Sample Dataset as defined: the records of a listing that took
    the fallback path are the entries of [SAMPLE_PROJECTS[:limit]] (or of
    the whole list) exactly as defined, the record of a lookup that took
    the fallback path is an entry exactly as defined, and none of them has
    an ["id"] or an ["_id"] field. *)
Theorem fallback_records_as_defined :
  (∀ (limit : option Z) (w : world),
     sample_intact w →
     fst (list_projects_attempt limit w) = Ret None →
     ∃ ps ds,
       fst (list_projects limit w) = Ret (ProjectsResponse ps)
       ∧ records (snd (list_projects limit w)) ps = Some ds
       ∧ ds = fallback_data limit SAMPLE_PROJECTS
       ∧ Forall (λ d : gmap string value, d !! "id" = None ∧ d !! "_id" = None) ds)
  ∧ (∀ (slug : string) (w w1 : world) (p : nat),
     sample_intact w →
     lookup_misses slug w w1 →
     fst (get_project slug w) = Ret (ProjectResponse p) →
     ∃ d, heap (snd (get_project slug w)) !! p = Some d
          ∧ d ∈ SAMPLE_PROJECTS
          ∧ d !! "id" = None ∧ d !! "_id" = None).
Proof.
  split.
  - intros limit w Hs Hatt.
    pose proof (list_projects_extends limit w) as Hext.
    unfold list_projects, bind in Hext |- *.
    destruct (list_projects_attempt limit w) as [[[resp|]|e] w1];
      simpl in Hatt; try discriminate Hatt.
    unfold get_world, ret in Hext |- *. simpl in Hext |- *.
    exists (fallback_data limit (sample_list w1)), (fallback_data limit SAMPLE_PROJECTS).
    split; [done|]. split; [|split; [done|]].
    + apply records_fallback_data. by eapply sample_intact_extends.
    + apply fallback_data_Forall, sample_no_identifier.
  - intros slug w w1 p Hs Hmiss Hrun.
    pose proof (sample_intact_extends w w1 (lookup_misses_extends slug w w1 Hmiss) Hs) as Hs1.
    rewrite (get_project_after_miss slug w w1 Hmiss Hs1) in Hrun |- *.
    destruct (first_match slug (sample_list w1) SAMPLE_PROJECTS) as [q|] eqn:Hm;
      simpl in Hrun; [|discriminate Hrun].
    injection Hrun as ->. simpl snd.
    destruct (first_match_some slug (heap w1) _ _ p (proj1 (mapM_Some _ _ _) Hs1) Hm)
      as (d & Hd & Hin).
    exists d. split; [done|]. split; [done|].
    pose proof sample_no_identifier as Hno.
    rewrite Forall_forall in Hno. by apply Hno.
Qed.
End sample_claims.

(** The in-memory store is a store against an external database. *)
Lemma alloc_all_spec (ds : list (gmap string value)) (h h' : gmap nat (gmap string value))
    (ps : list nat) :
  MemStore.alloc_all ds h = (ps, h') → h ⊆ h' ∧ ∀ p, p ∈ ps → h !! p = None.
Proof.
  revert h h' ps. induction ds as [|d ds IH]; intros h h' ps; simpl.
  - intros [= <- <-]. split; [done|]. by intros p ?%elem_of_nil.
  - destruct (MemStore.alloc_all ds _) as [qs h''] eqn:Hrec. intros [= <- <-].
    destruct (IH _ _ _ Hrec) as [Hsub Hfresh].
    assert (Hnew : h !! fresh (dom h) = None) by apply not_elem_of_dom, is_fresh.
    split.
    + transitivity (<[fresh (dom h) := d]> h); [by apply insert_subseteq | done].
    + intros p [->|Hin]%elem_of_cons; [done|].
      specialize (Hfresh p Hin). by apply lookup_insert_None in Hfresh as [? _].
Qed.

Lemma mem_store_external : @ExternalStore MemStore.collaborators.
Proof.
  split; simpl.
  - intros coll flt lim h s r h' s'. unfold MemStore.query.
    destruct (MemStore.down s); [by intros [= _ <- _]|].
    destruct (MemStore.alloc_all _ h) as [ps h''] eqn:Ha. intros [= _ <- _].
    by apply alloc_all_spec in Ha as [? _].
  - intros coll flt lim h s docs h' s'. unfold MemStore.query.
    destruct (MemStore.down s); [by intros [=]|].
    destruct (MemStore.alloc_all _ h) as [ps h''] eqn:Ha. intros [= <- _ _].
    by apply alloc_all_spec in Ha as [_ ?].
  - intros coll data h s r h' s'. unfold MemStore.insert.
    destruct (MemStore.down s); by intros [= _ <- _].
  - intros h s r h' s'. unfold MemStore.collection_names.
    destruct (MemStore.down s); by intros [= _ <- _].
Qed.

(** ** What main.py itself does to the heap *)

Section own_writes.
Context `{C : Collaborators}.

Lemma store_steps_trans (w1 w2 w3 : world) :
  store_steps w1 w2 → store_steps w2 w3 → store_steps w1 w3.
Proof.
  induction 1 as [w|coll flt lim w w' _ IH|coll data w w' _ IH|w w' _ IH]; intros H3;
    [done | eapply steps_get_documents | eapply steps_create_document
     | eapply steps_list_collection_names]; by apply IH.
Qed.

Lemma steps_after_get_documents coll flt lim (w : world) r h s :
  get_documents coll flt lim (heap w) (store_state w) = (r, h, s) →
  store_steps w (after_call (GetDocuments coll flt lim) h s w).
Proof.
  intros Hq. apply (steps_get_documents coll flt lim).
  unfold call_get_documents. rewrite Hq. constructor.
Qed.

Lemma steps_after_create_document coll data (w : world) r h s :
  create_document coll data (heap w) (store_state w) = (r, h, s) →
  store_steps w (after_call (CreateDocument coll data) h s w).
Proof.
  intros Hc. apply (steps_create_document coll data).
  unfold call_create_document. rewrite Hc. constructor.
Qed.

Lemma steps_seed_one (p : nat) (w : world) : store_steps w (seed_one p w).
Proof.
  unfold seed_one.
  destruct (create_document _ _ _ _) as [[r h] s] eqn:Hc.
  by eapply steps_after_create_document.
Qed.

Lemma steps_seed_fold (ps : list nat) (w : world) :
  store_steps w (foldl (λ w p, seed_one p w) w ps).
Proof.
  revert w. induction ps as [|p ps IH]; intros w; simpl; [constructor|].
  eapply store_steps_trans; [apply steps_seed_one | apply IH].
Qed.

Lemma steps_seeded (limit : option Z) (w : world) h1 s1 :
  get_documents "project" ∅ (limit_or_50 limit) (heap w) (store_state w) = (Ret [], h1, s1) →
  store_steps w (seeded limit h1 s1 w).
Proof.
  intros Hq. unfold seeded. rewrite seed_samples_run. cbn [snd].
  eapply store_steps_trans; [by eapply steps_after_get_documents | apply steps_seed_fold].
Qed.

Lemma store_steps_sample_list (w w' : world) :
  store_steps w w' → sample_list w' = sample_list w.
Proof.
  induction 1 as [w|coll flt lim w w' _ IH|coll data w w' _ IH|w w' _ IH]; [done|..];
    rewrite IH.
  - unfold call_get_documents. by destruct (get_documents _ _ _ _ _) as [[r h] s].
  - unfold call_create_document. by destruct (create_document _ _ _ _) as [[r h] s].
  - unfold call_list_collection_names. by destruct (list_collection_names _ _) as [[r h] s].
Qed.

(** A world reached by accessor calls alone, seen as one in which main.py
    renamed nothing. *)
Lemma steps_only (w w' : world) :
  store_steps w w' →
  ∃ w_s docs, store_steps w w_s ∧ w' = set_heap (rename_all docs (heap w_s)) w_s.
Proof.
  intros H. exists w', []. split; [exact H|]. simpl. by rewrite set_heap_heap.
Qed.

(** Every request: accessor calls, then at most the renaming loop. *)
Lemma handle_own_writes (r : request) (w : world) :
  ∃ w_s docs,
    store_steps w w_s
    ∧ snd (handle r w) = set_heap (rename_all docs (heap w_s)) w_s.
Proof.
  destruct r as [| | |limit|slug|payload]; simpl.
  - apply steps_only. constructor.
  - apply steps_only. constructor.
  - apply steps_only.
    assert (Hw : snd (test_database w)
                 = if db w is Some _ then snd (call_list_collection_names w) else w).
    { unfold test_database, bind, try_except, get_world, call_list_collection_names, ret.
      destruct (db w); [|done].
      by destruct (list_collection_names _ _) as [[[l|e] h] s]. }
    rewrite Hw. destruct (db w); [|constructor].
    apply steps_list_collection_names. constructor.
  - destruct (db w) as [d|] eqn:Hdb;
      [|rewrite (list_projects_without_db limit w Hdb); apply steps_only; constructor].
    destruct (get_documents "project" ∅ (limit_or_50 limit) (heap w) (store_state w))
      as [[[[|p docs]|e] h1] s1] eqn:Hq.
    + rewrite (list_projects_first_query_empty limit w d h1 s1 Hdb Hq). cbv zeta.
      pose proof (steps_seeded limit w h1 s1 Hq) as Hw2.
      destruct (get_documents _ _ _ (heap (seeded _ _ _ _)) _) as [[[docs|e] h3] s3] eqn:Hq2;
        cbn [snd].
      * exists (after_call (GetDocuments "project" ∅ (limit_or_50 limit)) h3 s3
                  (seeded limit h1 s1 w)), docs.
        split; [|reflexivity].
        eapply store_steps_trans; [exact Hw2 | by eapply steps_after_get_documents].
      * apply steps_only.
        eapply store_steps_trans; [exact Hw2 | by eapply steps_after_get_documents].
    + rewrite (list_projects_first_query_records limit w d p docs h1 s1 Hdb Hq). cbn [snd].
      exists (after_call (GetDocuments "project" ∅ (limit_or_50 limit)) h1 s1 w), (p :: docs).
      split; [|reflexivity]. by eapply steps_after_get_documents.
    + rewrite (list_projects_first_query_raises limit w d e h1 s1 Hdb Hq). cbn [snd].
      apply steps_only. by eapply steps_after_get_documents.
  - destruct (get_project_cases slug w)
      as [(w1 & Hmiss & ->)|(d & p & docs & h & s & Hdb & Hq)].
    + apply steps_only.
      destruct Hmiss as [_|d e h s _ Hq|d h s _ Hq];
        [constructor | by eapply steps_after_get_documents
         | by eapply steps_after_get_documents].
    + rewrite (get_project_attempt_found slug w d p docs h s Hdb Hq). cbn [snd].
      exists (after_call (GetDocuments "project" {["slug" := VStr slug]} 1) h s w), [p].
      split; [|reflexivity]. by eapply steps_after_get_documents.
  - apply steps_only.
    destruct (MessageSchema (name payload) (email payload) (message payload))
      as [msg|e] eqn:Hmsg.
    + rewrite (submit_contact_run payload msg w Hmsg).
      destruct (db w); [|constructor].
      destruct (create_document _ _ _ _) as [[[i|e] h] s] eqn:Hc; cbn [snd];
        by eapply steps_after_create_document.
    + unfold submit_contact, bind. rewrite Hmsg. constructor.
Qed.

(** The renaming leaves a dict without ["_id"] as it is, listed or not. *)
Lemma rename_all_without_id (docs : list nat) (h : gmap nat (gmap string value)) p d :
  h !! p = Some d → d !! "_id" = None → rename_all docs h !! p = Some d.
Proof.
  intros Hp Hd. rewrite lookup_rename_all, Hp. case_decide; [|done].
  simpl. unfold id_renamed. by rewrite Hd.
Qed.

Lemma handle_sample_list (r : request) (w : world) :
  sample_list (snd (handle r w)) = sample_list w.
Proof.
  destruct (handle_own_writes r w) as (w_s & docs & Hsteps & ->).
  exact (store_steps_sample_list w w_s Hsteps).
Qed.

Lemma run_sample_list (rs : list request) (w : world) :
  sample_list (run rs w) = sample_list w.
Proof.
  revert w. induction rs as [|r rs IH]; intros w; [done|].
  change (run (r :: rs) w) with (run rs (snd (handle r w))).
  by rewrite IH, handle_sample_list.
Qed.

Lemma sample_intact_renamed (docs : list nat) (w : world) :
  sample_intact w → sample_intact (set_heap (rename_all docs (heap w)) w).
Proof.
  unfold sample_intact, records. rewrite !mapM_Some. cbn [heap sample_list set_heap].
  pose proof sample_no_identifier as Hno. revert Hno.
  generalize SAMPLE_PROJECTS (sample_list w). intros ds ps Hno Hall.
  induction Hall as [|p d ps ds Hp _ IH]; [constructor|].
  apply Forall_cons in Hno as [[_ Hd] Hno].
  constructor; [by apply rename_all_without_id | by apply IH].
Qed.

Section framed.
Context {F : FramedStore}.

Lemma store_steps_heap (w w' : world) : store_steps w w' → heap w ⊆ heap w'.
Proof.
  induction 1 as [w|coll flt lim w w' _ IH|coll data w w' _ IH|w w' _ IH]; [done|..];
    (etransitivity; [|exact IH]).
  - unfold call_get_documents.
    destruct (get_documents _ _ _ _ _) as [[r h] s] eqn:Hq. by eapply get_documents_keeps.
  - unfold call_create_document.
    destruct (create_document _ _ _ _) as [[r h] s] eqn:Hc. by eapply create_document_keeps.
  - unfold call_list_collection_names.
    destruct (list_collection_names _ _) as [[r h] s] eqn:Hl.
    by eapply list_collection_names_keeps.
Qed.

Lemma handle_sample_intact (r : request) (w : world) :
  sample_intact w → sample_intact (snd (handle r w)).
Proof.
  intros Hs. destruct (handle_own_writes r w) as (w_s & docs & Hsteps & ->).
  apply sample_intact_renamed.
  apply (sample_intact_extends w w_s); [|exact Hs].
  split; [by apply store_steps_sample_list | by apply store_steps_heap].
Qed.

Lemma run_sample_intact (rs : list request) (w : world) :
  sample_intact w → sample_intact (run rs w).
Proof.
  revert w. induction rs as [|r rs IH]; intros w Hs; [done|].
  change (run (r :: rs) w) with (run rs (snd (handle r w))).
  by apply IH, handle_sample_intact.
Qed.
End framed.

End own_writes.

Lemma external_store_framed `{C : Collaborators} : ExternalStore → FramedStore.
Proof.
  intros E. split.
  - apply get_documents_frame.
  - apply create_document_frame.
  - apply list_collection_names_frame.
Qed.

Lemma mem_store_framed : @FramedStore MemStore.collaborators.
Proof. apply external_store_framed, mem_store_external. Qed.

(** ** The theorems at concrete inputs *)

(** An accessor result whose first component is known. *)
Lemma call_result_eta {A H S : Type} (x : outcome A * H * S) (r : outcome A) :
  x.1.1 = r → x = (r, x.1.2, x.2).
Proof. destruct x as [[r' h] s]. by intros <-. Qed.

Lemma lookup_eta {A : Type} (o : option A) (a : A) :
  (if o is Some _ then true else false) = true → o = Some (default a o).
Proof. by destruct o. Qed.

Section scenarios.
#[local] Existing Instance MemStore.collaborators.

Lemma scenario_after_miss (slug : string) (w w1 : world) :
  sample_intact w → lookup_misses slug w w1 → sample_intact w1.
Proof.
  intros Hs Hmiss. eapply sample_intact_extends; [|exact Hs].
  exact (lookup_misses_extends (E := mem_store_external) slug w w1 Hmiss).
Qed.

(** An empty database whose second write fails: all three entries are
    tried, the two that went through come back from the second query. *)
Lemma list_projects_seeds_empty_store_witness :
  let w := Scenario.empty_db [false; false; true; false; false] in
  calls (snd (list_projects None w))
    = [ GetDocuments "project" ∅ 50;
        CreateDocument "project" (DictRef 0);
        CreateDocument "project" (DictRef 1);
        CreateDocument "project" (DictRef 2);
        GetDocuments "project" ∅ 50 ]
  ∧ fst (list_projects None w) = Ret (ProjectsResponse [3; 4]%nat).
Proof.
  intros w.
  assert (Hq : (get_documents "project" ∅ 50 (heap w) (store_state w)).1.1 = Ret []).
  { vm_compute. reflexivity. }
  destruct (list_projects_seeds_empty_store None w DbHandle _ _ eq_refl
              (call_result_eta _ _ Hq)) as [Hcalls Hdocs].
  split; [exact Hcalls|].
  eapply Hdocs. apply call_result_eta. vm_compute. reflexivity.
Defined.

(** C2 as stated fails: a seed write that raises does not lead to the
    Sample Dataset (here all three raise and the second query finds
    nothing, so the listing is empty), and a limit of zero, though given,
    does not truncate. *)
Lemma list_projects_seed_failure_counterexample :
  let w := Scenario.empty_db [false; true; true; true; false] in
  let w1 := snd (call_get_documents "project" ∅ 50 w) in
  fst (call_get_documents "project" ∅ 50 w) = Ret []
  ∧ fst (call_create_document "project" (DictRef 0) w1)
      = Raise (Exception "store operation failed")
  ∧ fst (list_projects None w) = Ret (ProjectsResponse [])
  ∧ fst (list_projects None w) ≠ Ret (ProjectsResponse (sample_list w))
  ∧ fst (list_projects (Some 0%Z) Scenario.no_db)
      = Ret (ProjectsResponse (sample_list Scenario.no_db))
  ∧ sample_list Scenario.no_db ≠ take (Z.to_nat 0) (sample_list Scenario.no_db).
Proof.
  intros w w1.
  assert (Hrun : fst (list_projects None w) = Ret (ProjectsResponse [])).
  { vm_compute. reflexivity. }
  split; [vm_compute; reflexivity|]. split; [vm_compute; reflexivity|].
  split; [exact Hrun|]. split; [rewrite Hrun; discriminate|].
  split; [vm_compute; reflexivity | discriminate].
Qed.

Lemma list_projects_never_raises_witness :
  list_projects (Some 2%Z) Scenario.no_db
    = (Ret (ProjectsResponse [0; 1]%nat), Scenario.no_db)
  ∧ fst (list_projects None (Scenario.empty_db [true]))
      = Ret (ProjectsResponse [0; 1; 2]%nat)
  ∧ fst (list_projects (Some 1%Z) (Scenario.empty_db [false; false; false; false; true]))
      = Ret (ProjectsResponse [0]%nat).
Proof.
  split; [|split].
  - destruct (list_projects_never_raises (Some 2%Z) Scenario.no_db) as (_ & H & _).
    exact (H eq_refl).
  - destruct (list_projects_never_raises None (Scenario.empty_db [true]))
      as (_ & _ & H & _).
    eapply (H DbHandle (Exception "store operation failed")); [reflexivity|].
    apply call_result_eta. vm_compute. reflexivity.
  - pose (w := Scenario.empty_db [false; false; false; false; true]).
    destruct (list_projects_never_raises (Some 1%Z) w) as (_ & _ & _ & H & _).
    assert (Hq : (get_documents "project" ∅ 1 (heap w) (store_state w)).1.1 = Ret []).
    { vm_compute. reflexivity. }
    eapply (H DbHandle _ _ (Exception "store operation failed") _ _ eq_refl
              (call_result_eta _ _ Hq)).
    apply call_result_eta. vm_compute. reflexivity.
Defined.

(** C3 as stated fails at [N = 0]: zero is at most the length of the
    dataset, the handle is absent, and the listing has all three entries
    instead of none. *)
Lemma list_projects_limit_zero_counterexample :
  let w := Scenario.no_db in
  db w = None
  ∧ sample_intact w
  ∧ (0 ≤ Z.of_nat (length SAMPLE_PROJECTS))%Z
  ∧ list_projects (Some 0%Z) w = (Ret (ProjectsResponse [0; 1; 2]%nat), w)
  ∧ records w [0; 1; 2]%nat = Some SAMPLE_PROJECTS
  ∧ records w [0; 1; 2]%nat ≠ Some (take (Z.to_nat 0) SAMPLE_PROJECTS).
Proof.
  intros w.
  assert (Hs : records w [0; 1; 2]%nat = Some SAMPLE_PROJECTS)
    by exact (initial_world_intact None MemStore.empty ∅).
  split; [reflexivity|]. split; [exact Hs|]. split; [simpl; lia|].
  split; [exact (list_projects_without_db (Some 0%Z) w eq_refl)|].
  split; [exact Hs|]. rewrite Hs. discriminate.
Qed.

Lemma list_projects_limit_prefix_witness :
  ∃ ps,
    list_projects (Some 2%Z) Scenario.no_db = (Ret (ProjectsResponse ps), Scenario.no_db)
    ∧ ps = take (Z.to_nat 2) (sample_list Scenario.no_db)
    ∧ records Scenario.no_db ps = Some (take (Z.to_nat 2) SAMPLE_PROJECTS).
Proof.
  apply (list_projects_limit_prefix 2 Scenario.no_db).
  - reflexivity.
  - apply initial_world_intact.
  - simpl. lia.
Defined.

Lemma list_projects_limit_zero_whole_witness :
  ∃ ps,
    list_projects (Some 0%Z) Scenario.no_db = (Ret (ProjectsResponse ps), Scenario.no_db)
    ∧ records Scenario.no_db ps = Some SAMPLE_PROJECTS
    ∧ length ps = length SAMPLE_PROJECTS
    ∧ ps ≠ []
    ∧ list_projects (Some 0%Z) Scenario.no_db = list_projects None Scenario.no_db.
Proof.
  apply (list_projects_limit_zero_whole Scenario.no_db).
  - reflexivity.
  - apply initial_world_intact.
Defined.

Lemma get_project_unknown_slug_witness :
  get_project "does-not-exist" Scenario.no_db
    = (Raise (HTTPException 404 "Project not found"), Scenario.no_db)
  ∧ fst (get_project "does-not-exist" (Scenario.empty_db []))
      = Raise (HTTPException 404 "Project not found").
Proof.
  assert (Hno : ∀ d : gmap string value,
    d ∈ SAMPLE_PROJECTS → d !! "slug" ≠ Some (VStr "does-not-exist")).
  { intros d Hd. unfold SAMPLE_PROJECTS in Hd.
    repeat (apply elem_of_cons in Hd as [->|Hd]); try (vm_compute; discriminate).
    by apply elem_of_nil in Hd. }
  split.
  - apply get_project_unknown_slug; [by constructor | apply initial_world_intact | exact Hno].
  - set (w := Scenario.empty_db []).
    assert (Hmiss : lookup_misses "does-not-exist" w
                      (snd (call_get_documents "project"
                              {["slug" := VStr "does-not-exist"]} 1 w))).
    { apply (miss_no_record "does-not-exist" w DbHandle); [reflexivity|].
      apply call_result_eta. vm_compute. reflexivity. }
    rewrite (get_project_unknown_slug "does-not-exist" w _ Hmiss); [done| |exact Hno].
    eapply scenario_after_miss; [apply initial_world_intact | exact Hmiss].
Defined.

Lemma get_project_sample_fallback_witness :
  (∃ p, fst (get_project "data-driven-portfolio-engine" (Scenario.empty_db [true]))
          = Ret (ProjectResponse p)
        ∧ p = 2%nat)
  ∧ (∃ p d, get_project "immersive-brand-microsite" Scenario.no_db
              = (Ret (ProjectResponse p), Scenario.no_db)
            ∧ heap Scenario.no_db !! p = Some d
            ∧ d !! "title" = Some (VStr "Immersive Brand Microsite")).
Proof.
  destruct get_project_sample_fallback as [Hany Hfirst].
  split.
  - set (w := Scenario.empty_db [true]).
    assert (Hmiss : lookup_misses "data-driven-portfolio-engine" w
                      (snd (call_get_documents "project"
                              {["slug" := VStr "data-driven-portfolio-engine"]} 1 w))).
    { apply (miss_query_raises "data-driven-portfolio-engine" w DbHandle
               (Exception "store operation failed")); [reflexivity|].
      apply call_result_eta. vm_compute. reflexivity. }
    destruct (Hany "data-driven-portfolio-engine" w _ 2%nat
                (default ∅ (SAMPLE_PROJECTS !! 2%nat)) Hmiss)
      as (p & Hrun & Hp & _).
    + eapply scenario_after_miss; [apply initial_world_intact | exact Hmiss].
    + reflexivity.
    + vm_compute. reflexivity.
    + exists p. rewrite Hrun. split; [done|]. vm_compute in Hp. by injection Hp as <-.
  - apply Hfirst; [reflexivity | apply initial_world_intact].
Defined.

Lemma submit_contact_always_ok_witness :
  let payload := mkContactRequest "A" "a@b.com" "hi" in
  submit_contact payload Scenario.no_db = (Ret (ContactResponse "ok" None), Scenario.no_db)
  ∧ fst (submit_contact payload (Scenario.empty_db [true])) = Ret (ContactResponse "ok" None)
  ∧ fst (submit_contact payload (Scenario.empty_db []))
      = Ret (ContactResponse "ok" (Some "oid0")).
Proof.
  intros payload. split; [|split].
  - destruct (submit_contact_always_ok payload (mkMessage "A" "a@b.com" "hi")
                Scenario.no_db eq_refl) as (_ & H & _).
    exact (H eq_refl).
  - pose (w := Scenario.empty_db [true]).
    destruct (submit_contact_always_ok payload (mkMessage "A" "a@b.com" "hi") w eq_refl)
      as (_ & _ & H & _).
    eapply (H DbHandle (Exception "store operation failed")); [reflexivity|].
    apply call_result_eta. vm_compute. reflexivity.
  - pose (w := Scenario.empty_db []).
    destruct (submit_contact_always_ok payload (mkMessage "A" "a@b.com" "hi") w eq_refl)
      as (_ & _ & _ & H).
    eapply (H DbHandle "oid0"); [reflexivity|].
    apply call_result_eta. vm_compute. reflexivity.
Defined.

(** The listing of an empty database: the three records written by the
    seeding come back with ["id"] and without ["_id"]. *)
Lemma store_records_identifier_renamed_witness :
  let w := Scenario.empty_db [] in
  fst (list_projects None w) = Ret (ProjectsResponse [3; 4; 5]%nat)
  ∧ ∃ r', heap (snd (list_projects None w)) !! 3%nat = Some r'
          ∧ r' !! "_id" = None
          ∧ r' !! "id" = Some (VStr "oid0").
Proof.
  intros w.
  destruct (@store_records_identifier_renamed MemStore.collaborators) as (_ & Hseeded & _).
  assert (Hq : (get_documents "project" ∅ 50 (heap w) (store_state w)).1.1 = Ret []).
  { vm_compute. reflexivity. }
  pose (w2 := seeded None (get_documents "project" ∅ 50 (heap w) (store_state w)).1.2
                (get_documents "project" ∅ 50 (heap w) (store_state w)).2 w).
  assert (Hq2 : (get_documents "project" ∅ 50 (heap w2) (store_state w2)).1.1
                = Ret [3; 4; 5]%nat).
  { vm_compute. reflexivity. }
  destruct (Hseeded None w DbHandle _ _ _ _ _ eq_refl (call_result_eta _ _ Hq)
              (call_result_eta _ _ Hq2)) as [Hresp Hrec].
  split; [exact Hresp|].
  destruct (Hrec 3%nat
              (default ∅ ((get_documents "project" ∅ 50 (heap w2) (store_state w2)).1.2
                          !! 3%nat)))
    as (r' & Hr' & Hno & Hid & _).
  - by left.
  - apply lookup_eta. vm_compute. reflexivity.
  - exists r'. split; [exact Hr'|]. split; [exact Hno|].
    apply (Hid (VOid "oid0")). vm_compute. reflexivity.
Defined.

(** A listing whose first query fails and a lookup whose query fails. *)
Lemma fallback_records_as_defined_witness :
  (∃ ps ds,
     fst (list_projects (Some 2%Z) (Scenario.empty_db [true])) = Ret (ProjectsResponse ps)
     ∧ records (snd (list_projects (Some 2%Z) (Scenario.empty_db [true]))) ps = Some ds
     ∧ ds = fallback_data (Some 2%Z) SAMPLE_PROJECTS
     ∧ Forall (λ d : gmap string value, d !! "id" = None ∧ d !! "_id" = None) ds)
  ∧ (∃ d, heap (snd (get_project "realtime-product-configurator"
                       (Scenario.empty_db [true]))) !! 1%nat = Some d
          ∧ d ∈ SAMPLE_PROJECTS
          ∧ d !! "id" = None ∧ d !! "_id" = None).
Proof.
  destruct (fallback_records_as_defined (E := mem_store_external)) as [Hlist Hlookup].
  split.
  - apply Hlist; [apply initial_world_intact | vm_compute; reflexivity].
  - pose (w := Scenario.empty_db [true]).
    apply (Hlookup "realtime-product-configurator" w
             (snd (call_get_documents "project"
                     {["slug" := VStr "realtime-product-configurator"]} 1 w))).
    + apply initial_world_intact.
    + apply (miss_query_raises "realtime-product-configurator" w DbHandle
               (Exception "store operation failed")); [reflexivity|].
      apply call_result_eta. vm_compute. reflexivity.
    + vm_compute. reflexivity.
Defined.
End scenarios.


(** ** The Sample Dataset at concrete inputs *)



(** * Further properties of the handlers *)

(** ** Diagnostics *)

Section diagnostics.
Context `{C : Collaborators}.

(** The outcome of [test_database], path by path. *)
Lemma test_database_run (w : world) :
  let url := Some (if getenv_truthy "DATABASE_URL" w then "✅ Set" else "❌ Not Set") in
  let name := Some (if getenv_truthy "DATABASE_NAME" w then "✅ Set" else "❌ Not Set") in
  test_database w =
    match db w with
    | None =>
        (Ret (DiagnosticsResponse
                (Diagnostics "✅ Running" "⚠️  Available but not initialized" url name
                   "Not Connected" [])), w)
    | Some _ =>
        match list_collection_names (heap w) (store_state w) with
        | (Ret l, h, s) =>
            (Ret (DiagnosticsResponse
                    (Diagnostics "✅ Running" "✅ Connected & Working" url name
                       "Connected" (take 10 l))),
             after_call ListCollectionNames h s w)
        | (Raise e, h, s) =>
            (Ret (DiagnosticsResponse
                    (Diagnostics "✅ Running"
                       ("⚠️  Connected but Error: " +:+ str_take 50 (str_exn e))
                       url name "Connected" [])),
             after_call ListCollectionNames h s w)
        end
    end.
Proof.
  unfold test_database, bind, try_except, get_world, call_list_collection_names, ret.
  destruct (db w); [|reflexivity].
  destruct (list_collection_names _ _) as [[[l|e] h] s]; reflexivity.
Qed.

Lemma str_len_take (n : nat) (s : string) :
  str_len (str_take n s) = Nat.min n (str_len s).
Proof.
  revert n. induction s as [|a s IH]; intros n; simpl; [by destruct n|].
  destruct (is_continuation a) eqn:Ha; simpl.
  - rewrite Ha. apply IH.
  - destruct n as [|n]; simpl; [done|]. rewrite Ha. by rewrite IH.
Qed.

Lemma str_take_prefix (n : nat) (s : string) :
  ∃ rest, s = str_take n s +:+ rest.
Proof.
  revert n. induction s as [|a s IH]; intros n; simpl; [by exists ""|].
  destruct (is_continuation a).
  - destruct (IH n) as [rest Hrest]. exists rest.
    change (String a s = String a (str_take n s +:+ rest)). by f_equal.
  - destruct n as [|n]; [by exists (String a s)|].
    destruct (IH n) as [rest Hrest]. exists rest.
    change (String a s = String a (str_take n s +:+ rest)). by f_equal.
Qed.

Lemma str_take_all (n : nat) (s : string) :
  (str_len s ≤ n)%nat → str_take n s = s.
Proof.
  revert n. induction s as [|a s IH]; intros n; simpl; [done|].
  destruct (is_continuation a); intros Hn.
  - by rewrite IH.
  - destruct n as [|n]; [lia|]. rewrite IH; [done | lia].
Qed.

(** X1.  The diagnostics never raise, whatever the store does, and the
    fields [database_url] and [database_name] of the answer only say
    whether the two environment variables are set to a non-empty value:
    they are never null and never show what lines 95-96 put there. *)
Theorem test_database_never_raises (w : world) :
  ∃ d, fst (test_database w) = Ret (DiagnosticsResponse d)
       ∧ backend d = "✅ Running"
       ∧ database_url d
           = Some (if getenv_truthy "DATABASE_URL" w then "✅ Set" else "❌ Not Set")
       ∧ database_name d
           = Some (if getenv_truthy "DATABASE_NAME" w then "✅ Set" else "❌ Not Set").
Proof.
  rewrite test_database_run. cbv zeta.
  destruct (db w); [|simpl; eauto].
  destruct (list_collection_names _ _) as [[[l|e] h] s]; simpl; eauto.
Qed.


(** X3.  The diagnostics list at most ten collections: the first ten the
    store names, in the store's order; none without handle or when the
    listing raises. *)
Theorem test_database_collections (w : world) :
  ∃ d, fst (test_database w) = Ret (DiagnosticsResponse d)
    ∧ (length (collections d) ≤ 10)%nat
    ∧ (∀ h l hp s, db w = Some h →
         list_collection_names (heap w) (store_state w) = (Ret l, hp, s) →
         collections d = take 10 l
         ∧ collections d `prefix_of` l
         ∧ length (collections d) = Nat.min 10 (length l))
    ∧ (db w = None ∨ (∃ e hp s,
         list_collection_names (heap w) (store_state w) = (Raise e, hp, s)) →
       collections d = []).
Proof.
  rewrite test_database_run. cbv zeta.
  destruct (db w) as [h0|].
  - destruct (list_collection_names _ _) as [[[l|e] hp] s]; cbn [fst];
      eexists; (split; [reflexivity|]); cbn [collections].
    + split; [rewrite length_take; lia|]. split.
      * intros _ l' hp' s' _ [= <- <- <-].
        split; [done|]. split; [apply prefix_take | apply length_take].
      * intros [?|(e & hp' & s' & ?)]; discriminate.
    + split; [simpl; lia|]. split; [intros ? ? ? ? _ [=] | done].
  - cbn [fst]. eexists. split; [reflexivity|]. cbn [collections length].
    split; [lia|]. split; [intros; discriminate | done].
Qed.

(** X4.  The diagnostics touch the store at most once and only to list
    the collection names: with a handle the log gains that one call,
    without a handle the world is as before. *)
Theorem test_database_calls (w : world) :
  (∀ h, db w = Some h →
     calls (snd (test_database w)) = (calls w ++ [ListCollectionNames])%list
     ∧ writes (calls (snd (test_database w))) = writes (calls w))
  ∧ (db w = None → snd (test_database w) = w).
Proof.
  rewrite test_database_run. cbv zeta. split.
  - intros h ->.
    destruct (list_collection_names _ _) as [[[l|e] hp] s]; simpl;
      (split; [done|]); unfold writes; rewrite List.filter_app; simpl;
      by rewrite app_nil_r.
  - by intros ->.
Qed.
End diagnostics.

(** ** More on the listing *)

Section listing_more.
Context `{C : Collaborators}.

Lemma writes_app (cs cs' : list call) : writes (cs ++ cs') = (writes cs ++ writes cs')%list.
Proof. apply List.filter_app. Qed.

Lemma writes_seed_calls (ps : list nat) :
  writes (map (λ p, CreateDocument "project" (DictRef p)) ps)
    = map (λ p, CreateDocument "project" (DictRef p)) ps.
Proof.
  unfold writes. induction ps as [|p ps IH]; [done|].
  cbn [map List.filter is_write]. by f_equal.
Qed.

(** The log and the unchanging parts of the world after a listing whose
    first query found nothing. *)
Lemma list_projects_empty_world (limit : option Z) (w : world) d h1 s1 :
  db w = Some d →
  get_documents "project" ∅ (limit_or_50 limit) (heap w) (store_state w) = (Ret [], h1, s1) →
  let c := GetDocuments "project" ∅ (limit_or_50 limit) in
  let w' := snd (list_projects limit w) in
  calls w'
    = (calls w ++ c :: map (λ p, CreateDocument "project" (DictRef p)) (sample_list w) ++ [c])%list
  ∧ sample_list w' = sample_list w
  ∧ db w' = db w.
Proof.
  intros Hdb Hq c w'. subst w'.
  rewrite (list_projects_first_query_empty limit w d h1 s1 Hdb Hq). cbv zeta.
  unfold seeded. rewrite seed_samples_run. cbn [snd].
  change (sample_list (after_call (GetDocuments "project" ∅ (limit_or_50 limit)) h1 s1 w))
    with (sample_list w).
  match goal with |- context [foldl ?f ?w1 ?ps] =>
    destruct (seed_fold_fields ps w1) as (Hs & Hd & _ & Hc); cbv zeta in Hs, Hd, Hc;
    set (w2 := foldl f w1 ps) in * end.
  destruct (get_documents _ _ _ (heap w2) (store_state w2)) as [[[docs|e] h3] s3];
    cbn [snd]; simpl; simpl in Hs, Hd, Hc; subst c;
    (split; [rewrite Hc, <- !app_assoc; reflexivity | by split]).
Qed.

(** X5.  A listing whose first query finds records only reads: the log
    gains that one query and no write, the limit sent to the store is
    never zero, the response holds every record the store returned (the
    handler itself does not cut the list to [limit]), and the handler
    changes no dict object other than the records returned. *)
Theorem list_projects_reads_without_seeding (limit : option Z) (w : world) d p docs h s :
  db w = Some d →
  get_documents "project" ∅ (limit_or_50 limit) (heap w) (store_state w)
    = (Ret (p :: docs), h, s) →
  let w' := snd (list_projects limit w) in
  fst (list_projects limit w) = Ret (ProjectsResponse (p :: docs))
  ∧ calls w' = (calls w ++ [GetDocuments "project" ∅ (limit_or_50 limit)])%list
  ∧ writes (calls w') = writes (calls w)
  ∧ limit_or_50 limit ≠ 0%Z
  ∧ ∀ q, q ∉ p :: docs → heap w' !! q = h !! q.
Proof.
  intros Hdb Hq w'. subst w'.
  rewrite (list_projects_first_query_records limit w d p docs h s Hdb Hq). cbn [fst snd].
  split; [done|]. split; [done|]. split; [|split].
  - change (writes (calls w ++ [GetDocuments "project" ∅ (limit_or_50 limit)])
              = writes (calls w)).
    rewrite writes_app. apply app_nil_r.
  - unfold limit_or_50. destruct limit as [n|]; [|lia].
    destruct (Z.eqb_spec n 0); lia.
  - intros q Hq'. cbn [heap set_heap]. by rewrite lookup_rename_all, decide_False.
Qed.

(** X6.  As long as every query of the store comes back empty, every
    listing seeds again: after [n] listings the writes in the log are the
    earlier ones followed by [n] rounds, each with one write for every
    Sample Dataset entry, in the order of the list.  Nothing remembers
    that the seeding was already tried. *)
Theorem list_projects_reseeds_while_empty (limit : option Z) (n : nat) (w : world) d :
  (∀ coll flt lim h s, (get_documents coll flt lim h s).1.1 = Ret []) →
  db w = Some d →
  writes (calls (run (replicate n (GET_api_projects limit)) w))
    = (writes (calls w)
       ++ List.concat
            (replicate n (map (λ p, CreateDocument "project" (DictRef p)) (sample_list w))))%list.
Proof.
  intros Hempty. revert w. induction n as [|n IH]; intros w Hdb.
  { simpl. by rewrite app_nil_r. }
  change (run (replicate (S n) (GET_api_projects limit)) w)
    with (run (replicate n (GET_api_projects limit)) (snd (list_projects limit w))).
  destruct (get_documents "project" ∅ (limit_or_50 limit) (heap w) (store_state w))
    as [[r h1] s1] eqn:Hq.
  pose proof (Hempty "project" ∅ (limit_or_50 limit) (heap w) (store_state w)) as Hr.
  rewrite Hq in Hr. simpl in Hr. subst r.
  destruct (list_projects_empty_world limit w d h1 s1 Hdb Hq) as (Hc & Hs & Hd).
  rewrite IH by (by rewrite Hd). rewrite Hc, Hs.
  rewrite writes_app. change (?c :: ?l ++ [?c'])%list with ([c] ++ l ++ [c'])%list.
  rewrite !writes_app, writes_seed_calls.
  cbn [writes List.filter is_write replicate List.concat].
  rewrite app_nil_r. cbn [app]. by rewrite <- app_assoc.
Qed.

(** X7.  Without handle the listing is a prefix of the list
    [SAMPLE_PROJECTS], of the length Python's slice gives: all entries
    for no limit, a limit of zero or a limit of at least the length; the
    first [n] for a smaller positive [n]; all but the last [-n] for a
    negative [n], and none when [-n] reaches the length. *)
Theorem list_projects_fallback_bounds (limit : option Z) (w : world) :
  db w = None →
  ∃ ps,
    list_projects limit w = (Ret (ProjectsResponse ps), w)
    ∧ ps `prefix_of` sample_list w
    ∧ length ps = fallback_length limit (length (sample_list w))
    ∧ (∀ n, limit = Some n → (Z.of_nat (length (sample_list w)) ≤ n)%Z →
         ps = sample_list w)
    ∧ (∀ n, limit = Some n → (n < 0)%Z →
         ps = take (length (sample_list w) - Z.to_nat (- n)) (sample_list w))
    ∧ (∀ n, limit = Some n → (n ≤ - Z.of_nat (length (sample_list w)))%Z → (n < 0)%Z →
         ps = []).
Proof.
  intros Hdb. exists (fallback_data limit (sample_list w)).
  split; [by apply list_projects_without_db|].
  set (l := sample_list w).
  unfold fallback_data, fallback_length, truthy, slice_to.
  destruct limit as [n|].
  - destruct (Z.eqb_spec n 0) as [->|Hn]; simpl.
    + split; [done|]. split; [done|]. split.
      * intros n [= <-] Hl. done.
      * split; intros n [= <-] ?; lia.
    + destruct (Z.leb_spec 0 n) as [Hpos|Hneg].
      * destruct (Z.ltb_spec 0 n); [|lia].
        split; [apply prefix_take|]. split; [apply length_take|]. split.
        -- intros n' [= <-] Hl. apply take_ge. lia.
        -- split; intros n' [= <-] ?; lia.
      * destruct (Z.ltb_spec 0 n); [lia|].
        replace (Z.to_nat (Z.of_nat (length l) + n)) with (length l - Z.to_nat (- n))%nat
          by lia.
        split; [apply prefix_take|]. split; [rewrite length_take; lia|]. split.
        -- intros n' [= <-] Hl. lia.
        -- split; intros n' [= <-] ?; [done|].
           intros _. replace (length l - Z.to_nat (- n))%nat with 0%nat by lia. done.
  - split; [done|]. split; [done|]. split; [discriminate|]. split; discriminate.
Qed.
End listing_more.

(** ** More on the lookup *)

Section lookup_more.
Context `{C : Collaborators}.

Lemma value_eqb_str_false (v : value) (s : string) :
  v ≠ VStr s → value_eqb v (VStr s) = false.
Proof.
  intros Hne. destruct (value_eqb v (VStr s)) eqn:E; [|done].
  by apply value_eqb_str in E.
Qed.

(** Entries with another slug are passed over. *)
Lemma scan_samples_skip (slug : string) (w : world) (ps1 ps : list nat) :
  (∀ q, q ∈ ps1 →
     ∃ d v, heap w !! q = Some d ∧ d !! "slug" = Some v ∧ v ≠ VStr slug) →
  scan_samples slug (ps1 ++ ps) w = scan_samples slug ps w.
Proof.
  induction ps1 as [|q ps1 IH]; intros Hskip; [done|].
  destruct (Hskip q) as (d & v & Hd & Hv & Hne); [by left|].
  simpl. unfold bind at 1. unfold getitem. rewrite Hd. simpl. rewrite Hv.
  rewrite (value_eqb_str_false v slug Hne).
  apply IH. intros q' Hq'. apply Hskip. by right.
Qed.

Lemma scan_samples_hit (slug : string) (w : world) (p : nat) (ps : list nat) d :
  heap w !! p = Some d → d !! "slug" = Some (VStr slug) →
  scan_samples slug (p :: ps) w = (Ret (Some p), w).
Proof.
  intros Hd Hv. simpl. unfold bind, getitem. rewrite Hd. simpl. rewrite Hv.
  by rewrite (proj2 (value_eqb_str (VStr slug) slug) eq_refl).
Qed.

Lemma scan_samples_no_slug (slug : string) (w : world) (p : nat) (ps : list nat) d :
  heap w !! p = Some d → d !! "slug" = None →
  scan_samples slug (p :: ps) w = (Raise (KeyError "slug"), w).
Proof.
  intros Hd Hv. simpl. unfold bind, getitem. rewrite Hd. simpl. by rewrite Hv.
Qed.

Lemma scan_samples_raises (slug : string) (ps : list nat) (w : world) e :
  fst (scan_samples slug ps w) = Raise e → e = KeyError "slug".
Proof.
  induction ps as [|p ps IH]; simpl; [discriminate|].
  unfold bind at 1. unfold getitem.
  destruct (heap w !! p ≫= _) as [v|]; [|by intros [= <-]].
  destruct (value_eqb v (VStr slug)); [discriminate | exact IH].
Qed.

(** The handler once the store has nothing for [slug], whatever the list
    [SAMPLE_PROJECTS] holds. *)
Lemma get_project_miss_scan (slug : string) (w w1 : world) :
  lookup_misses slug w w1 →
  get_project slug w =
    match scan_samples slug (sample_list w1) w1 with
    | (Ret (Some p), w') => (Ret (ProjectResponse p), w')
    | (Ret None, w') => (Raise (HTTPException 404 "Project not found"), w')
    | (Raise e, w') => (Raise e, w')
    end.
Proof.
  intros Hmiss. unfold get_project. unfold bind at 1.
  rewrite (get_project_attempt_misses slug w w1 Hmiss).
  unfold bind, get_world, ret, raise.
  by destruct (scan_samples _ _ _) as [[[p|]|e] w'].
Qed.

(** X8.  The lookup takes the first entry of [SAMPLE_PROJECTS] that
    carries the slug: nothing in the code keeps slugs apart, and when two
    entries share one, the earlier is returned. *)
Theorem get_project_first_match_wins (slug : string) (w w1 : world)
    (ps1 ps2 : list nat) (p : nat) d :
  lookup_misses slug w w1 →
  sample_list w1 = (ps1 ++ p :: ps2)%list →
  (∀ q, q ∈ ps1 →
     ∃ d' v, heap w1 !! q = Some d' ∧ d' !! "slug" = Some v ∧ v ≠ VStr slug) →
  heap w1 !! p = Some d →
  d !! "slug" = Some (VStr slug) →
  get_project slug w = (Ret (ProjectResponse p), w1).
Proof.
  intros Hmiss Hl Hskip Hd Hv.
  rewrite (get_project_miss_scan slug w w1 Hmiss), Hl.
  rewrite (scan_samples_skip slug w1 ps1 (p :: ps2) Hskip).
  by rewrite (scan_samples_hit slug w1 p ps2 d Hd Hv).
Qed.

(** X9.  The scan of [SAMPLE_PROJECTS] reads ["slug"] of each entry
    outside the [try]: an entry without that key, reached before any
    match, makes the lookup raise [KeyError] instead of answering 404 or
    going on to later entries. *)
Theorem get_project_entry_without_slug (slug : string) (w w1 : world)
    (ps1 ps2 : list nat) (p : nat) d :
  lookup_misses slug w w1 →
  sample_list w1 = (ps1 ++ p :: ps2)%list →
  (∀ q, q ∈ ps1 →
     ∃ d' v, heap w1 !! q = Some d' ∧ d' !! "slug" = Some v ∧ v ≠ VStr slug) →
  heap w1 !! p = Some d →
  d !! "slug" = None →
  get_project slug w = (Raise (KeyError "slug"), w1).
Proof.
  intros Hmiss Hl Hskip Hd Hv.
  rewrite (get_project_miss_scan slug w w1 Hmiss), Hl.
  rewrite (scan_samples_skip slug w1 ps1 (p :: ps2) Hskip).
  by rewrite (scan_samples_no_slug slug w1 p ps2 d Hd Hv).
Qed.

(** X10.  When the store returns records for the slug, the lookup
    answers with the first of them and does not look at the Sample
    Dataset, whether or not an entry there carries the slug; the log
    gains the one query, and the handler changes no dict object but the
    record it returns (further records of the query stay as the store
    gave them). *)
Theorem get_project_store_record_first (slug : string) (w : world) d p docs h s :
  db w = Some d →
  get_documents "project" {["slug" := VStr slug]} 1 (heap w) (store_state w)
    = (Ret (p :: docs), h, s) →
  let w' := snd (get_project slug w) in
  fst (get_project slug w) = Ret (ProjectResponse p)
  ∧ calls w' = (calls w ++ [GetDocuments "project" {["slug" := VStr slug]} 1])%list
  ∧ sample_list w' = sample_list w
  ∧ ∀ q, q ≠ p → heap w' !! q = h !! q.
Proof.
  intros Hdb Hq w'. subst w'.
  rewrite (get_project_attempt_found slug w d p docs h s Hdb Hq). cbn [fst snd].
  split; [done|]. split; [done|]. split; [done|].
  intros q Hne. cbn [heap set_heap].
  rewrite lookup_rename_id_heap. by rewrite decide_False.
Qed.

(** X11.  The lookup never writes to the store and queries it at most
    once: with a handle the log gains exactly the query for the slug with
    limit 1, without a handle nothing. *)
Theorem get_project_calls (slug : string) (w : world) :
  let w' := snd (get_project slug w) in
  calls w'
    = (calls w ++ if db w is Some _
                  then [GetDocuments "project" {["slug" := VStr slug]} 1]
                  else [])%list
  ∧ writes (calls w') = writes (calls w).
Proof.
  intros w'. subst w'.
  assert (Hcalls : calls (snd (get_project slug w))
    = (calls w ++ if db w is Some _
                  then [GetDocuments "project" {["slug" := VStr slug]} 1]
                  else [])%list).
  { destruct (get_project_cases slug w)
      as [(w1 & Hmiss & ->)|(d & p & docs & h & s & Hdb & Hq)].
    - destruct Hmiss as [Hdb|d e h s Hdb Hq|d h s Hdb Hq]; rewrite Hdb;
        [by rewrite app_nil_r | done | done].
    - rewrite (get_project_attempt_found slug w d p docs h s Hdb Hq). by rewrite Hdb. }
  split; [exact Hcalls|]. rewrite Hcalls, writes_app.
  destruct (db w); by rewrite app_nil_r.
Qed.

(** X12.  The lookup surfaces two errors only: the 404 with detail
    "Project not found", and the [KeyError] of an entry without
    ["slug"].  An exception of the store never reaches the caller. *)
Theorem get_project_errors (slug : string) (w : world) :
  (∃ p, fst (get_project slug w) = Ret (ProjectResponse p))
  ∨ fst (get_project slug w) = Raise (HTTPException 404 "Project not found")
  ∨ fst (get_project slug w) = Raise (KeyError "slug").
Proof.
  destruct (get_project_cases slug w)
    as [(w1 & Hmiss & _)|(d & p & docs & h & s & Hdb & Hq)].
  - rewrite (get_project_miss_scan slug w w1 Hmiss).
    pose proof (scan_samples_raises slug (sample_list w1) w1) as Hraise.
    destruct (scan_samples _ _ _) as [[[p|]|e] w']; simpl in *.
    + left. by exists p.
    + right. by left.
    + right. right. by rewrite (Hraise e eq_refl).
  - left. exists p. by rewrite (get_project_attempt_found slug w d p docs h s Hdb Hq).
Qed.
End lookup_more.

(** ** More on the contact form, and the handlers without database *)

Section contact_more.
Context `{C : Collaborators}.

(** X13.  The message schema is applied before the [try]: the
    submission raises exactly when the schema raises, with the schema's
    exception, and then nothing has been written - the world is as
    before. *)
Theorem submit_contact_rejected (payload : ContactRequest) (w : world) (e : exn) :
  (fst (submit_contact payload w) = Raise e
   ↔ MessageSchema (name payload) (email payload) (message payload) = Raise e)
  ∧ (MessageSchema (name payload) (email payload) (message payload) = Raise e →
     submit_contact payload w = (Raise e, w)).
Proof.
  destruct (MessageSchema (name payload) (email payload) (message payload))
    as [msg|e'] eqn:Hmsg.
  - rewrite (submit_contact_run payload msg w Hmsg). split; [|discriminate].
    destruct (db w); [|simpl; split; discriminate].
    destruct (create_document _ _ _ _) as [[[i|e''] h] s]; simpl; split; discriminate.
  - assert (Hrun : submit_contact payload w = (Raise e', w)).
    { unfold submit_contact, bind. by rewrite Hmsg. }
    rewrite Hrun. split; [simpl; split; by intros [= ->]|]. by intros [= ->].
Qed.

(** X14.  A submission the schema accepts writes at most once: with a
    handle the log gains the one write of the schema's model to the
    collection "message", whether that write returns or raises; without
    a handle nothing.  It never queries. *)
Theorem submit_contact_calls (payload : ContactRequest) (msg : Message) (w : world) :
  MessageSchema (name payload) (email payload) (message payload) = Ret msg →
  calls (snd (submit_contact payload w))
    = (calls w ++ if db w is Some _
                  then [CreateDocument "message" (Model msg)]
                  else [])%list.
Proof.
  intros Hmsg. rewrite (submit_contact_run payload msg w Hmsg).
  destruct (db w); [|by rewrite app_nil_r].
  by destruct (create_document _ _ _ _) as [[[i|e] h] s].
Qed.

(** X15.  Without handle no route touches the store: after any request
    the world - heap, store state and log of accessor calls - is what it
    was. *)
Theorem handle_without_db (r : request) (w : world) :
  db w = None → snd (handle r w) = w.
Proof.
  intros Hdb. destruct r as [| | |limit|slug|payload]; simpl; [done|done|..].
  - rewrite test_database_run. cbv zeta. by rewrite Hdb.
  - by rewrite (list_projects_without_db limit w Hdb).
  - destruct (get_project_cases slug w)
      as [(w1 & Hmiss & ->)|(d & p & docs & h & s & Hdb' & _)]; [|congruence].
    destruct Hmiss as [_|d e h s Hdb' _|d h s Hdb' _]; [done|congruence|congruence].
  - destruct (MessageSchema (name payload) (email payload) (message payload))
      as [msg|e] eqn:Hmsg.
    + rewrite (submit_contact_run payload msg w Hmsg). by rewrite Hdb.
    + unfold submit_contact, bind. by rewrite Hmsg.
Qed.
End contact_more.

Section listing_side_effects.
Context `{C : Collaborators}.

(** X16.  Seeding is not undone by the fallback: when the first query
    is empty and the query after seeding raises, the caller gets the Sample
    Dataset, and the log nevertheless holds one write for each Sample
    Dataset entry. *)
Theorem list_projects_fallback_after_seeding (limit : option Z) (w : world) d h1 s1 e h3 s3 :
  db w = Some d →
  get_documents "project" ∅ (limit_or_50 limit) (heap w) (store_state w) = (Ret [], h1, s1) →
  get_documents "project" ∅ (limit_or_50 limit)
      (heap (seeded limit h1 s1 w)) (store_state (seeded limit h1 s1 w))
    = (Raise e, h3, s3) →
  fst (list_projects limit w) = Ret (ProjectsResponse (fallback_data limit (sample_list w)))
  ∧ writes (calls (snd (list_projects limit w)))
      = (writes (calls w)
         ++ map (λ p, CreateDocument "project" (DictRef p)) (sample_list w))%list.
Proof.
  intros Hdb Hq Hq2. split.
  - rewrite (list_projects_first_query_empty limit w d h1 s1 Hdb Hq). cbv zeta.
    by rewrite Hq2.
  - destruct (list_projects_empty_world limit w d h1 s1 Hdb Hq) as (-> & _ & _).
    rewrite writes_app.
    change (?c :: ?l ++ [?c'])%list with ([c] ++ l ++ [c'])%list.
    rewrite !writes_app, writes_seed_calls. cbn [writes List.filter is_write].
    by rewrite app_nil_r.
Qed.
End listing_side_effects.

(** ** The further properties at concrete inputs *)

Section more_scenarios.
#[local] Existing Instance MemStore.collaborators.


(** Eleven collections: ten are listed. *)
Lemma test_database_collections_witness :
  ∃ d, fst (test_database Catalogue.eleven_collections) = Ret (DiagnosticsResponse d)
       ∧ length (collections d) = 10%nat.
Proof.
  set (w := Catalogue.eleven_collections).
  destruct (test_database_collections w) as (d & Hrun & _ & Hok & _).
  assert (Hl : (list_collection_names (heap w) (store_state w)).1.1
               = Ret ["c7"; "c3"; "c5"; "c9"; "c10"; "c1"; "c6"; "c2"; "c4"; "c8"; "c0"]).
  { vm_compute. reflexivity. }
  destruct (Hok DbHandle _ _ _ eq_refl (call_result_eta _ _ Hl)) as (_ & _ & Hlen).
  exists d. split; [exact Hrun | exact Hlen].
Defined.

Lemma test_database_calls_witness :
  calls (snd (test_database (Scenario.empty_db []))) = [ListCollectionNames]
  ∧ snd (test_database Scenario.no_db) = Scenario.no_db.
Proof.
  split.
  - destruct (test_database_calls (Scenario.empty_db [])) as [H _].
    exact (proj1 (H DbHandle eq_refl)).
  - destruct (test_database_calls Scenario.no_db) as [_ H]. exact (H eq_refl).
Defined.

(** A database holding the three seeded records, listed with limit 2. *)
Lemma list_projects_reads_without_seeding_witness :
  let w := Catalogue.seeded_db in
  fst (list_projects (Some 2%Z) w) = Ret (ProjectsResponse [6; 7]%nat)
  ∧ calls (snd (list_projects (Some 2%Z) w))
      = (calls w ++ [GetDocuments "project" ∅ 2])%list
  ∧ writes (calls (snd (list_projects (Some 2%Z) w))) = writes (calls w).
Proof.
  intros w.
  assert (Hq : (get_documents "project" ∅ 2 (heap w) (store_state w)).1.1
               = Ret [6; 7]%nat).
  { vm_compute. reflexivity. }
  assert (Hdb : db w = Some DbHandle) by (vm_compute; reflexivity).
  destruct (list_projects_reads_without_seeding (Some 2%Z) w DbHandle 6%nat [7]%nat _ _
              Hdb (call_result_eta _ _ Hq)) as (Hr & Hc & Hw & _).
  split; [exact Hr|]. split; [exact Hc | exact Hw].
Defined.

(** Two listings of a store whose queries always come back empty. *)
Lemma list_projects_reseeds_while_empty_witness :
  writes (calls
    (@run InPlaceStore.collaborators
       (replicate 2 (GET_api_projects None))
       (@initial_world InPlaceStore.collaborators (Some DbHandle) 0%nat ∅)))
  = [ CreateDocument "project" (DictRef 0);
      CreateDocument "project" (DictRef 1);
      CreateDocument "project" (DictRef 2);
      CreateDocument "project" (DictRef 0);
      CreateDocument "project" (DictRef 1);
      CreateDocument "project" (DictRef 2) ].
Proof.
  apply (@list_projects_reseeds_while_empty InPlaceStore.collaborators None 2
           (@initial_world InPlaceStore.collaborators (Some DbHandle) 0%nat ∅) DbHandle).
  - intros coll flt lim h s. reflexivity.
  - reflexivity.
Defined.

(** A negative limit without database. *)
Lemma list_projects_fallback_bounds_witness :
  ∃ ps,
    list_projects (Some (-1)%Z) Scenario.no_db = (Ret (ProjectsResponse ps), Scenario.no_db)
    ∧ length ps = 2%nat
    ∧ ps = take 2 (sample_list Scenario.no_db).
Proof.
  destruct (list_projects_fallback_bounds (Some (-1)%Z) Scenario.no_db eq_refl)
    as (ps & Hrun & _ & Hlen & _ & Hneg & _).
  exists ps. split; [exact Hrun|]. split; [exact Hlen|].
  apply (Hneg (-1)%Z eq_refl). lia.
Defined.

Lemma get_project_first_match_wins_witness :
  get_project "b" Catalogue.shared_slug = (Ret (ProjectResponse 1), Catalogue.shared_slug).
Proof.
  apply (get_project_first_match_wins "b" Catalogue.shared_slug Catalogue.shared_slug
           [0%nat] [2%nat] 1%nat (<[ "title" := VStr "first" ]> {[ "slug" := VStr "b" ]})).
  - by constructor.
  - reflexivity.
  - intros q ->%list_elem_of_singleton.
    exists {[ "slug" := VStr "a" ]}, (VStr "a").
    split; [vm_compute; reflexivity|]. split; [vm_compute; reflexivity | discriminate].
  - vm_compute. reflexivity.
  - vm_compute. reflexivity.
Defined.

Lemma get_project_entry_without_slug_witness :
  get_project "b" Catalogue.missing_slug = (Raise (KeyError "slug"), Catalogue.missing_slug).
Proof.
  apply (get_project_entry_without_slug "b" Catalogue.missing_slug Catalogue.missing_slug
           [0%nat] [2%nat] 1%nat {[ "title" := VStr "untitled" ]}).
  - by constructor.
  - reflexivity.
  - intros q ->%list_elem_of_singleton.
    exists {[ "slug" := VStr "a" ]}, (VStr "a").
    split; [vm_compute; reflexivity|]. split; [vm_compute; reflexivity | discriminate].
  - vm_compute. reflexivity.
  - vm_compute. reflexivity.
Defined.

(** The seeded database has its own record for a slug of the Sample
    Dataset: the lookup returns the store's record, object 6, not the
    sample entry, object 1. *)
Lemma get_project_store_record_first_witness :
  let w := Catalogue.seeded_db in
  fst (get_project "realtime-product-configurator" w) = Ret (ProjectResponse 6)
  ∧ sample_list (snd (get_project "realtime-product-configurator" w)) = [0; 1; 2]%nat.
Proof.
  intros w.
  assert (Hq : (get_documents "project" {["slug" := VStr "realtime-product-configurator"]} 1
                  (heap w) (store_state w)).1.1 = Ret [6]%nat).
  { vm_compute. reflexivity. }
  assert (Hdb : db w = Some DbHandle) by (vm_compute; reflexivity).
  destruct (get_project_store_record_first "realtime-product-configurator" w DbHandle
              6%nat [] _ _ Hdb (call_result_eta _ _ Hq)) as (Hr & _ & Hs & _).
  split; [exact Hr|]. rewrite Hs. vm_compute. reflexivity.
Defined.

(** A write that raises is still the one call of the submission. *)
Lemma submit_contact_calls_witness :
  calls (snd (submit_contact (mkContactRequest "A" "a@b.com" "hi") (Scenario.empty_db [true])))
    = [CreateDocument "message" (Model (mkMessage "A" "a@b.com" "hi"))].
Proof.
  exact (submit_contact_calls (mkContactRequest "A" "a@b.com" "hi")
           (mkMessage "A" "a@b.com" "hi") (Scenario.empty_db [true]) eq_refl).
Defined.

Lemma handle_without_db_witness :
  snd (handle (POST_api_contact (mkContactRequest "A" "a@b.com" "hi")) Scenario.no_db)
    = Scenario.no_db
  ∧ snd (handle (GET_api_project "does-not-exist") Scenario.no_db) = Scenario.no_db.
Proof.
  split; apply handle_without_db; reflexivity.
Defined.

(** Three writes go through, then the second query fails. *)
Lemma list_projects_fallback_after_seeding_witness :
  let w := Scenario.empty_db [false; false; false; false; true] in
  fst (list_projects None w) = Ret (ProjectsResponse [0; 1; 2]%nat)
  ∧ writes (calls (snd (list_projects None w)))
      = [ CreateDocument "project" (DictRef 0);
          CreateDocument "project" (DictRef 1);
          CreateDocument "project" (DictRef 2) ].
Proof.
  intros w.
  assert (Hq : (get_documents "project" ∅ 50 (heap w) (store_state w)).1.1 = Ret []).
  { vm_compute. reflexivity. }
  eapply (list_projects_fallback_after_seeding None w DbHandle _ _
            (Exception "store operation failed") _ _ eq_refl (call_result_eta _ _ Hq)).
  apply call_result_eta. vm_compute. reflexivity.
Defined.
End more_scenarios.
